(** * InvokeAI Models Viewer: a shallow embedding of [invokedbapp.py]

    The development follows the layout of the Python source:

    - [PyStr]: the [str] methods the program calls ([lower], [strip], [in],
      [split], [join]) and the comparison [list.sort] uses;
    - [PosixPath]: the part of [pathlib] the program relies on (the [/]
      operator, [str()] of a path and [.suffix]);
    - [ModelDatabase]: the per-row normalisation of [load_models];
    - [InvokeAIViewer]: the application state and its event handlers.

    Conventions of the model.

    - A Python [str] is a Rocq [string] whose characters are the code
      points U+0000 to U+00FF (Latin-1); on that range the case mapping and
      the white-space test below are those of Python.  Text with code
      points above U+00FF is outside the model.
    - Paths are POSIX paths.  [PosixPath] follows CPython 3.12, where a path
      keeps its raw segments and parses them on demand; the earlier
      versions parse eagerly with the same results.  [suffix] is the
      definition of CPython 3.9 to 3.13.
    - The columns of a row are SQL text or [NULL]; [json.loads] and [str()]
      are parameters of the model ([Builtins]).
    - A handler is a function on the application state [viewer]; what it
      raises or hands to another component is part of its result.  The
      status bar holds a [message] (the text of the source without the
      database path), the header of a column a label and an optional mark.
      [self._models], the styling and the key bindings are left out. *)

From Stdlib Require Import ZArith NArith Ascii String DecimalString Sorting.Sorted
  Permutation Lia.
From stdpp Require Import base list strings sorting.

Local Open Scope Z_scope.

(** String concatenation unfolds under [simpl] in this file. *)
#[local] Arguments String.append : simpl nomatch.

(* ===================================================================== *)
(** * Python strings *)
(* ===================================================================== *)

Module PyStr.

(** Code point of a character. *)
Definition ord (c : ascii) : N := N_of_ascii c.

(** [c.lower()] on one Latin-1 character: the upper-case letters are
    [A]-[Z], and U+00C0 to U+00DE except the multiplication sign U+00D7;
    each maps to the code point 32 above it. *)
Definition is_upper (c : ascii) : bool :=
  let n := ord c in
  ((65 <=? n) && (n <=? 90))%N
  || ((192 <=? n) && (n <=? 222) && negb (n =? 215))%N.

Definition lower_char (c : ascii) : ascii :=
  if is_upper c then ascii_of_N (ord c + 32) else c.

(** [s.lower()] *)
Fixpoint lower (s : string) : string :=
  match s with
  | EmptyString => EmptyString
  | String c s' => String (lower_char c) (lower s')
  end.

(** [c.isspace()] for a Latin-1 character: TAB, LF, VT, FF, CR, the
    separators U+001C to U+001F, the space, NEL (U+0085) and the
    no-break space (U+00A0). *)
Definition isspace (c : ascii) : bool :=
  let n := ord c in
  ((9 <=? n) && (n <=? 13))%N || ((28 <=? n) && (n <=? 32))%N
  || (n =? 133)%N || (n =? 160)%N.

(** [s.lstrip()], [s.rstrip()] and [s.strip()] without argument. *)
Fixpoint lstrip (s : string) : string :=
  match s with
  | EmptyString => EmptyString
  | String c s' => if isspace c then lstrip s' else s
  end.

Fixpoint rstrip (s : string) : string :=
  match s with
  | EmptyString => EmptyString
  | String c s' =>
      match rstrip s' with
      | EmptyString => if isspace c then EmptyString else String c EmptyString
      | r => String c r
      end
  end.

Definition strip (s : string) : string := rstrip (lstrip s).

(** Truth value of a string: [bool(s)]. *)
Definition truthy (s : string) : bool :=
  match s with EmptyString => false | String _ _ => true end.

(** [s.startswith(p)] *)
Fixpoint startswith (s p : string) {struct p} : bool :=
  match p, s with
  | EmptyString, _ => true
  | String _ _, EmptyString => false
  | String a p', String b s' => if ascii_dec a b then startswith s' p' else false
  end.

(** [s.endswith(c)] for a one-character suffix. *)
Fixpoint endswith_char (s : string) (c : ascii) : bool :=
  match s with
  | EmptyString => false
  | String a EmptyString => if ascii_dec a c then true else false
  | String _ s' => endswith_char s' c
  end.

(** [needle in hay]: substring test. *)
Fixpoint contains (needle hay : string) : bool :=
  startswith hay needle
  || match hay with
     | EmptyString => false
     | String _ hay' => contains needle hay'
     end.

(** [s.split(sep)] for a one-character separator; never the empty list. *)
Fixpoint split (sep : ascii) (s : string) : list string :=
  match s with
  | EmptyString => [EmptyString]
  | String c s' =>
      if ascii_dec c sep then EmptyString :: split sep s'
      else match split sep s' with
           | h :: t => String c h :: t
           | [] => [String c EmptyString]
           end
  end.

(** [sep.join(l)] *)
Fixpoint join (sep : string) (l : list string) : string :=
  match l with
  | [] => EmptyString
  | [x] => x
  | x :: l' => x +:+ sep +:+ join sep l'
  end.

(** [a < b] on strings: lexicographic on code points. *)
Definition lt (a b : string) : bool := String.ltb a b.

(** [s.rfind(c)] for a character: index of the last occurrence. *)
Fixpoint rfind (s : string) (c : ascii) : option nat :=
  match s with
  | EmptyString => None
  | String a s' =>
      match rfind s' c with
      | Some i => Some (S i)
      | None => if ascii_dec a c then Some 0%nat else None
      end
  end.

(** [s[i:]] *)
Fixpoint drop (i : nat) (s : string) : string :=
  match i, s with
  | O, _ => s
  | S i', String _ s' => drop i' s'
  | S _, EmptyString => EmptyString
  end.

End PyStr.

(* ===================================================================== *)
(** * [pathlib.PurePosixPath] *)
(* ===================================================================== *)

(** A path object keeps the strings it was built from ([_raw_paths]); they
    are joined with [posixpath.join] and parsed into a root and a list of
    components when the path is printed or inspected. *)

Module PosixPath.

Definition sep : ascii := "/"%char.

Record t := mk { raw_paths : list string }.

(** [Path(s)] *)
Definition Path (s : string) : t := mk [s].

(** [p / key] for a string [key]. *)
Definition truediv (p : t) (key : string) : t := mk (raw_paths p ++ [key]).

(** One step of [posixpath.join]: an absolute segment replaces what came
    before; otherwise a separator is inserted unless [path] is empty or
    already ends with one. *)
Definition join_step (path b : string) : string :=
  if PyStr.startswith b "/" then b
  else if negb (PyStr.truthy path) || PyStr.endswith_char path sep then path +:+ b
  else path +:+ "/" +:+ b.

(** [posixpath.join(a, *p)] *)
Definition join (a : string) (p : list string) : string :=
  fold_left join_step p a.

(** [p[i:i+1] == sep] *)
Definition sep_at (i : nat) (p : string) : bool :=
  match String.get i p with
  | Some c => if ascii_dec c sep then true else false
  | None => false
  end.

(** [posixpath.splitroot]: no root for a relative path; the root ["/"]
    unless the path starts with exactly two slashes, for which the root is
    ["//"]. *)
Definition splitroot (p : string) : string * string :=
  if negb (sep_at 0 p) then ("", p)
  else if negb (sep_at 1 p) || sep_at 2 p then ("/", PyStr.drop 1 p)
  else ("//", PyStr.drop 2 p).

(** A component survives parsing when it is neither empty nor ["."]. *)
Definition keep (x : string) : bool :=
  PyStr.truthy x && negb (String.eqb x ".").

(** [_parse_path]: root and components of a raw string. *)
Definition parse_path (path : string) : string * list string :=
  if negb (PyStr.truthy path) then ("", [])
  else let '(root, rel) := splitroot path in
       (root, List.filter keep (PyStr.split sep rel)).

(** [_load_parts] *)
Definition load_parts (p : t) : string * list string :=
  match raw_paths p with
  | [] => parse_path ""
  | [x] => parse_path x
  | a :: rest => parse_path (join a rest)
  end.

Definition root (p : t) : string := fst (load_parts p).
Definition tail (p : t) : list string := snd (load_parts p).

(** [_format_parsed_parts] (there is no drive on POSIX). *)
Definition format_parsed_parts (root : string) (tail : list string) : string :=
  if PyStr.truthy root then root +:+ PyStr.join "/" tail
  else PyStr.join "/" tail.

(** [str(p)] *)
Definition str (p : t) : string :=
  let s := format_parsed_parts (root p) (tail p) in
  if PyStr.truthy s then s else ".".

(** [p.name]: the last component, or the empty string. *)
Definition name (p : t) : string := List.last (tail p) "".

(** [p.suffix]: from the last dot of the name, when that dot is neither
    the first nor the last character. *)
Definition suffix (p : t) : string :=
  let n := name p in
  match PyStr.rfind n "." with
  | Some i =>
      if ((0 <? i) && (i <? String.length n - 1))%nat then PyStr.drop i n else ""
  | None => ""
  end.

End PosixPath.

(* ===================================================================== *)
(** * [class ModelDatabase] *)
(* ===================================================================== *)

(** The double quote character and a string between double quotes. *)
Definition dquote : string := String "034"%char EmptyString.
Definition quoted (s : string) : string := dquote +:+ s +:+ dquote.

(** Values [json.loads] can return. A float is kept as the text [str()]
    prints for it. *)
#[warnings="-register-all"]
Inductive pyobj :=
  | PyNone
  | PyBool (b : bool)
  | PyInt (z : Z)
  | PyFloat (repr : string)
  | PyStr (s : string)
  | PyList (items : list pyobj)
  | PyDict (items : list (string * pyobj)).

(** The two library functions [load_models] calls on a trigger payload.
    [json_loads s] is [None] when [json.loads(s)] raises [JSONDecodeError];
    [py_str v] is [str(v)].  A text on which [json.loads] raises another
    exception ([RecursionError] on deep nesting, [ValueError] on an integer
    of more than 4300 digits) is outside the model: statements that
    [load_models] returns are made for texts on which [json_loads] gives a
    value. *)
Class Builtins := {
  json_loads : string -> option pyobj;
  py_str : pyobj -> string
}.

Module ModelDatabase.

(** One row of the query: the five [json_extract] columns, each SQL text
    or [NULL] ([None]). *)
Record row := mk_row {
  model_name : option string;
  model_type : option string;
  model_base : option string;
  trigger_phrases_json : option string;
  model_path : option string
}.

(** The dictionary appended to [models] for each row. *)
Record model := mk_model {
  name : string;
  type : string;
  subtype : string;
  triggers : string;
  path : string
}.

Inductive error :=
  | FileNotFoundError
  | RuntimeError
  | TypeError.

(** [x or default] for a column that is a string or [None]. *)
Definition or_default (x : option string) (default : string) : string :=
  match x with
  | Some s => if PyStr.truthy s then s else default
  | None => default
  end.

Section WithBuiltins.
Context `{Builtins}.

(** The value of the local [triggers] once the payload is parsed:
    the empty list for a falsy payload and when [json.loads] raises, the
    parsed list when it is one, and otherwise the one-element list of
    the string form of the parsed value. *)
Definition parse_triggers (payload : option string) : list pyobj :=
  match payload with
  | Some p =>
      if PyStr.truthy p then
        match json_loads p with
        | Some (PyList l) => l
        | Some v => [PyStr (py_str v)]
        | None => []
        end
      else []
  | None => []
  end.

(** [sep.join(items)]: [TypeError] when an item is not a [str]. *)
Fixpoint str_items (items : list pyobj) : option (list string) :=
  match items with
  | [] => Some []
  | PyStr s :: rest =>
      match str_items rest with
      | Some l => Some (s :: l)
      | None => None
      end
  | _ :: _ => None
  end.

Definition join_items (sep : string) (items : list pyobj) : error + string :=
  match str_items items with
  | Some l => inr (PyStr.join sep l)
  | None => inl TypeError
  end.

(** [ext]: the suffix of the path, or nothing for a falsy path. *)
Definition ext_of (model_path : option string) : string :=
  match model_path with
  | Some p => if PyStr.truthy p then PosixPath.suffix (PosixPath.Path p) else ""
  | None => ""
  end.

Definition display_name (r : row) : string :=
  or_default (model_name r) "Unknown" +:+ ext_of (model_path r).

(** The body of the loop over the rows. *)
Definition load_row (r : row) : error + model :=
  let triggers := parse_triggers (trigger_phrases_json r) in
  let joined :=
    match triggers with
    | [] => inr ""
    | _ => join_items ", " triggers
    end in
  match joined with
  | inl e => inl e
  | inr t =>
      inr {| name := display_name r;
             type := or_default (model_type r) "Unknown";
             subtype := or_default (model_base r) "Unknown";
             triggers := t;
             path := or_default (model_path r) "" |}
  end.

(** The loop: the first row that raises ends it. *)
Fixpoint load_rows (rows : list row) : error + list model :=
  match rows with
  | [] => inr []
  | r :: rest =>
      match load_row r with
      | inl e => inl e
      | inr m =>
          match load_rows rest with
          | inl e => inl e
          | inr ms => inr (m :: ms)
          end
      end
  end.

(** What the database file holds when [load_models] runs. *)
Inductive database :=
  | Missing
  | Failing
  | Rows (rows : list row).

Definition load_models (db : database) : error + list model :=
  match db with
  | Missing => inl FileNotFoundError
  | Failing => inl RuntimeError
  | Rows rows => load_rows rows
  end.

End WithBuiltins.

End ModelDatabase.

(* ===================================================================== *)
(** * An executable instance of the two library functions *)
(* ===================================================================== *)

(** [json.loads] and [str] for a fragment of JSON: [null], [true],
    [false], integers, strings of printable ASCII characters without
    escapes, and arrays of these.  The instance answers [None] for any
    other text; it is used to run [load_models] on examples, and no
    general statement below depends on it. *)

Module MiniJson.

Definition is_ws (c : ascii) : bool :=
  match c with
  | " " | "009" | "010" | "013" => true
  | _ => false
  end%char.

Fixpoint skip_ws (s : string) : string :=
  match s with
  | String c s' => if is_ws c then skip_ws s' else s
  | EmptyString => s
  end.

Definition digit (c : ascii) : option Z :=
  let n := Z.of_N (N_of_ascii c) in
  if (48 <=? n) && (n <=? 57) then Some (n - 48) else None.

(** The digits at the head of [s], as a number, and what follows them. *)
Fixpoint digits (acc : Z) (s : string) : Z * string :=
  match s with
  | String c s' =>
      match digit c with
      | Some d => digits (10 * acc + d) s'
      | None => (acc, s)
      end
  | EmptyString => (acc, s)
  end.

(** An integer literal without sign: a lone [0], or digits that do not
    start with [0]; a fraction or an exponent is outside the fragment. *)
Definition unsigned (s : string) : option (Z * string) :=
  match s with
  | String c s' =>
      match digit c with
      | Some d =>
          let '(n, rest) := if d =? 0 then (0, s') else digits d s' in
          match rest with
          | String "." _ | String "e" _ | String "E" _ => None
          | _ => Some (n, rest)
          end
      | None => None
      end
  | EmptyString => None
  end.

Definition plain_char (c : ascii) : bool :=
  let n := Z.of_N (N_of_ascii c) in
  (32 <=? n) && (n <=? 126) && negb (n =? 34) && negb (n =? 92).

(** The text up to the closing quote of a string literal. *)
Fixpoint string_body (s : string) : option (string * string) :=
  match s with
  | String c s' =>
      if Ascii.eqb c "034" then Some (EmptyString, s')
      else if plain_char c then
        match string_body s' with
        | Some (body, rest) => Some (String c body, rest)
        | None => None
        end
      else None
  | EmptyString => None
  end.

Definition keyword (word : string) (v : pyobj) (s : string) : option (pyobj * string) :=
  if PyStr.startswith s word then Some (v, PyStr.drop (String.length word) s) else None.

Fixpoint value (fuel : nat) (s : string) : option (pyobj * string) :=
  match fuel with
  | O => None
  | S fuel' =>
      match skip_ws s with
      | String "n" _ as s1 => keyword "null" PyNone s1
      | String "t" _ as s1 => keyword "true" (PyBool true) s1
      | String "f" _ as s1 => keyword "false" (PyBool false) s1
      | String "034" s1 =>
          match string_body s1 with
          | Some (body, rest) => Some (PyStr body, rest)
          | None => None
          end
      | String "-" s1 =>
          match unsigned s1 with
          | Some (n, rest) => Some (PyInt (- n), rest)
          | None => None
          end
      | String "[" s1 =>
          match skip_ws s1 with
          | String "]" rest => Some (PyList [], rest)
          | s2 =>
              match elements fuel' s2 with
              | Some (items, rest) => Some (PyList items, rest)
              | None => None
              end
          end
      | s1 =>
          match unsigned s1 with
          | Some (n, rest) => Some (PyInt n, rest)
          | None => None
          end
      end
  end
with elements (fuel : nat) (s : string) : option (list pyobj * string) :=
  match fuel with
  | O => None
  | S fuel' =>
      match value fuel' s with
      | Some (v, rest) =>
          match skip_ws rest with
          | String "," rest' =>
              match elements fuel' rest' with
              | Some (items, rest'') => Some (v :: items, rest'')
              | None => None
              end
          | String "]" rest' => Some ([v], rest')
          | _ => None
          end
      | None => None
      end
  end.

Definition loads (s : string) : option pyobj :=
  match value (2 * S (String.length s)) s with
  | Some (v, rest) =>
      match skip_ws rest with
      | EmptyString => Some v
      | _ => None
      end
  | None => None
  end.

Definition decimal (z : Z) : string :=
  DecimalString.NilZero.string_of_int (Z.to_int z).

(** [repr] of a string of the fragment: between single quotes, or between
    double quotes when it holds a single quote. *)
Definition repr_str (s : string) : string :=
  if PyStr.contains "'" s then quoted s else "'" +:+ s +:+ "'".

Fixpoint repr (v : pyobj) : string :=
  match v with
  | PyNone => "None"
  | PyBool true => "True"
  | PyBool false => "False"
  | PyInt z => decimal z
  | PyFloat r => r
  | PyStr s => repr_str s
  | PyList items => "[" +:+ PyStr.join ", " (map repr items) +:+ "]"
  | PyDict items =>
      "{" +:+ PyStr.join ", "
                (map (fun kv => repr_str (fst kv) +:+ ": " +:+ repr (snd kv)) items)
      +:+ "}"
  end.

Definition to_str (v : pyobj) : string :=
  match v with
  | PyStr s => s
  | _ => repr v
  end.

#[export] Instance builtins : Builtins :=
  {| json_loads := loads; py_str := to_str |}.

End MiniJson.

(* ===================================================================== *)
(** * [list.sort(key=..., reverse=...)] *)
(* ===================================================================== *)

(** [list.sort] is a stable sort that compares keys with [<] only.  With
    [reverse=True] CPython reverses the list, sorts it the same way and
    reverses the result, which keeps equal keys in their original order.
    The sort itself is written as an insertion sort: a stable sort of
    totally ordered keys has one possible result ([list_sort_unique]
    below), so the algorithm does not matter. *)

Section ListSort.
Context {A : Type} (key : A -> string).

(** Insert [x] in front of the first element whose key is not below its
    own. *)
Fixpoint insert (x : A) (l : list A) : list A :=
  match l with
  | [] => [x]
  | y :: l' => if PyStr.lt (key y) (key x) then y :: insert x l' else x :: l
  end.

Fixpoint stable_sort (l : list A) : list A :=
  match l with
  | [] => []
  | x :: l' => insert x (stable_sort l')
  end.

Definition list_sort (reverse : bool) (l : list A) : list A :=
  if reverse then rev (stable_sort (rev l)) else stable_sort l.

End ListSort.

(* ===================================================================== *)
(** * [class InvokeAIViewer] *)
(* ===================================================================== *)

Module InvokeAIViewer.
Import ModelDatabase.

(** The keys a record is sorted by. *)
Inductive column := col_name | col_type | col_subtype.

(** [m[column]] *)
Definition getitem (m : model) (c : column) : string :=
  match c with
  | col_name => name m
  | col_type => type m
  | col_subtype => subtype m
  end.

(** [column_map.get(column_index)] *)
Definition column_map (column_index : Z) : option column :=
  match column_index with
  | 0 => Some col_name
  | 1 => Some col_type
  | 2 => Some col_subtype
  | _ => None
  end.

(** The mark appended to the header of the sorted column. *)
Inductive indicator := arrow_down | arrow_up.

Record header := mk_header {
  label : string;
  mark : option indicator;
  width : nat
}.

(** The messages of the status bar. *)
Inductive message :=
  | msg_loading
  | msg_showing_all (total : nat)
  | msg_showing (filtered total : nat)
  | msg_load_error (e : error)
  | msg_filters_reset
  | msg_no_models
  | msg_no_valid_paths
  | msg_copied (count : nat)
  | msg_copy_failed.

(** The application object [self]: its attributes and the content of the
    widgets it writes to. *)
Record viewer := mk_viewer {
  data_path : PosixPath.t;
  all_models : list model;
  filtered_models : list model;
  sort_column : column;
  sort_reverse : bool;
  filter_name : string;
  filter_type : string;
  filter_subtype : string;
  input_name : string;
  input_type : string;
  input_subtype : string;
  table_columns : list header;
  table_rows : list (string * string * string);
  status_text : message;
  status_error : bool
}.

(** Assignments to the attributes and widgets. *)
Definition set_status (text : message) (error : bool) (s : viewer) : viewer :=
  {| data_path := data_path s; all_models := all_models s;
     filtered_models := filtered_models s;
     sort_column := sort_column s; sort_reverse := sort_reverse s;
     filter_name := filter_name s; filter_type := filter_type s;
     filter_subtype := filter_subtype s;
     input_name := input_name s; input_type := input_type s;
     input_subtype := input_subtype s;
     table_columns := table_columns s; table_rows := table_rows s;
     status_text := text; status_error := error |}.

Definition set_table (columns : list header) (rows : list (string * string * string))
    (s : viewer) : viewer :=
  {| data_path := data_path s; all_models := all_models s;
     filtered_models := filtered_models s;
     sort_column := sort_column s; sort_reverse := sort_reverse s;
     filter_name := filter_name s; filter_type := filter_type s;
     filter_subtype := filter_subtype s;
     input_name := input_name s; input_type := input_type s;
     input_subtype := input_subtype s;
     table_columns := columns; table_rows := rows;
     status_text := status_text s; status_error := status_error s |}.

Definition set_models (all filtered : list model) (s : viewer) : viewer :=
  {| data_path := data_path s; all_models := all;
     filtered_models := filtered;
     sort_column := sort_column s; sort_reverse := sort_reverse s;
     filter_name := filter_name s; filter_type := filter_type s;
     filter_subtype := filter_subtype s;
     input_name := input_name s; input_type := input_type s;
     input_subtype := input_subtype s;
     table_columns := table_columns s; table_rows := table_rows s;
     status_text := status_text s; status_error := status_error s |}.

Definition set_sort (c : column) (reverse : bool) (s : viewer) : viewer :=
  {| data_path := data_path s; all_models := all_models s;
     filtered_models := filtered_models s;
     sort_column := c; sort_reverse := reverse;
     filter_name := filter_name s; filter_type := filter_type s;
     filter_subtype := filter_subtype s;
     input_name := input_name s; input_type := input_type s;
     input_subtype := input_subtype s;
     table_columns := table_columns s; table_rows := table_rows s;
     status_text := status_text s; status_error := status_error s |}.

Definition set_filters (fname ftype fsubtype : string) (s : viewer) : viewer :=
  {| data_path := data_path s; all_models := all_models s;
     filtered_models := filtered_models s;
     sort_column := sort_column s; sort_reverse := sort_reverse s;
     filter_name := fname; filter_type := ftype;
     filter_subtype := fsubtype;
     input_name := input_name s; input_type := input_type s;
     input_subtype := input_subtype s;
     table_columns := table_columns s; table_rows := table_rows s;
     status_text := status_text s; status_error := status_error s |}.

Definition set_inputs (iname itype isubtype : string) (s : viewer) : viewer :=
  {| data_path := data_path s; all_models := all_models s;
     filtered_models := filtered_models s;
     sort_column := sort_column s; sort_reverse := sort_reverse s;
     filter_name := filter_name s; filter_type := filter_type s;
     filter_subtype := filter_subtype s;
     input_name := iname; input_type := itype;
     input_subtype := isubtype;
     table_columns := table_columns s; table_rows := table_rows s;
     status_text := status_text s; status_error := status_error s |}.

(** [__init__]: the application before it is mounted; [compose] puts the
    loading message in the status bar. *)
Definition init (data_path : PosixPath.t) : viewer :=
  {| data_path := data_path; all_models := []; filtered_models := [];
     sort_column := col_name; sort_reverse := false;
     filter_name := ""; filter_type := ""; filter_subtype := "";
     input_name := ""; input_type := ""; input_subtype := "";
     table_columns := []; table_rows := [];
     status_text := msg_loading; status_error := false |}.

Definition update_status_text (text : message) (error : bool) (s : viewer) : viewer :=
  set_status text error s.

Definition update_status (s : viewer) : viewer :=
  let total := length (all_models s) in
  let filtered := length (filtered_models s) in
  if Nat.eqb filtered total
  then update_status_text (msg_showing_all total) false s
  else update_status_text (msg_showing filtered total) false s.

(** [table.clear()] keeps the columns; one row is added per model. *)
Definition update_table (s : viewer) : viewer :=
  set_table (table_columns s)
    (map (fun m => (name m, type m, subtype m)) (filtered_models s)) s.

(** One of the three filtering steps: skipped for an empty filter. *)
Definition filter_step (pattern : string) (c : column) (l : list model) : list model :=
  if PyStr.truthy pattern
  then List.filter (fun m => PyStr.contains pattern (PyStr.lower (getitem m c))) l
  else l.

(** The sort key [x[self.sort_column].lower()]. *)
Definition sort_key (c : column) (m : model) : string := PyStr.lower (getitem m c).

Definition apply_filters (s : viewer) : viewer :=
  let filtered := all_models s in
  let filtered := filter_step (filter_name s) col_name filtered in
  let filtered := filter_step (filter_type s) col_type filtered in
  let filtered := filter_step (filter_subtype s) col_subtype filtered in
  let filtered := list_sort (sort_key (sort_column s)) (sort_reverse s) filtered in
  update_status (update_table (set_models (all_models s) filtered s)).

Section WithBuiltins.
Context `{Builtins}.

Definition on_mount (db : database) (s : viewer) : viewer :=
  let s := set_table [mk_header "Model" (Some arrow_down) 120;
                      mk_header "Type" None 24;
                      mk_header "Base Model" None 16] (table_rows s) s in
  match load_models db with
  | inr models => update_status (update_table (set_models models models s))
  | inl e => update_status_text (msg_load_error e) true s
  end.

End WithBuiltins.

Definition column_eqb (a b : column) : bool :=
  match a, b with
  | col_name, col_name | col_type, col_type | col_subtype, col_subtype => true
  | _, _ => false
  end.

Definition on_data_table_header_selected (column_index : Z) (s : viewer) : viewer :=
  match column_map column_index with
  | None => s
  | Some selected_column =>
      let s :=
        if column_eqb (sort_column s) selected_column
        then set_sort (sort_column s) (negb (sort_reverse s)) s
        else set_sort selected_column false s in
      let headers := [("Model", None); ("Type", None); ("Base Model", None)] in
      let sort_indicator := if negb (sort_reverse s) then arrow_down else arrow_up in
      let headers :=
        alter (fun h => (fst h, Some sort_indicator)) (Z.to_nat column_index) headers in
      let s := set_table (zip_with (fun h w => mk_header (fst h) (snd h) w)
                            headers [120; 24; 16]%nat) [] s in
      apply_filters s
  end.

Definition on_input_changed (input_id value : string) (s : viewer) : viewer :=
  let s :=
    if String.eqb input_id "input_name"
    then set_filters (PyStr.lower value) (filter_type s) (filter_subtype s) s
    else if String.eqb input_id "input_type"
    then set_filters (filter_name s) (PyStr.lower value) (filter_subtype s) s
    else if String.eqb input_id "input_subtype"
    then set_filters (filter_name s) (filter_type s) (PyStr.lower value) s
    else s in
  apply_filters s.

Definition action_reset_filters (s : viewer) : viewer :=
  let s := set_inputs "" "" "" s in
  let s := set_filters "" "" "" s in
  let s := apply_filters s in
  update_status_text msg_filters_reset false s.

(** The command for one model. *)
Definition symlink_command (data_path : PosixPath.t) (model_path : string) : string :=
  let full_path := PosixPath.truediv (PosixPath.truediv data_path "models") model_path in
  "ln -s " +:+ quoted (PosixPath.str full_path) +:+ " .".

(** [model_path and model_path.strip()] as a condition. *)
Definition usable_path (model_path : string) : bool :=
  PyStr.truthy model_path && PyStr.truthy (PyStr.strip model_path).

(** The list [symlinks] built by the loop. *)
Definition symlinks_of (data_path : PosixPath.t) (models : list model) : list string :=
  flat_map (fun m => if usable_path (path m)
                     then [symlink_command data_path (path m)] else []) models.

Definition newline : string := String "010"%char EmptyString.

(** The handler returns the new application state and the text given to
    [pyperclip.copy], if that call is reached; [clipboard_ok] tells
    whether the call returns or raises. *)
Definition action_generate_symlinks (clipboard_ok : bool) (s : viewer)
    : viewer * option string :=
  match filtered_models s with
  | [] => (update_status_text msg_no_models true s, None)
  | _ =>
      let symlinks := symlinks_of (data_path s) (filtered_models s) in
      match symlinks with
      | [] => (update_status_text msg_no_valid_paths true s, None)
      | _ =>
          let symlink_text := PyStr.join newline symlinks in
          if clipboard_ok
          then (update_status_text (msg_copied (length symlinks)) false s,
                Some symlink_text)
          else (update_status_text msg_copy_failed true s, Some symlink_text)
      end
  end.

(** The events the application reacts to, and a run of the event loop. *)
Inductive event :=
  | HeaderSelected (column_index : Z)
  | InputChanged (input_id value : string)
  | ResetFilters
  | GenerateSymlinks (clipboard_ok : bool).

Definition handle (s : viewer) (e : event) : viewer :=
  match e with
  | HeaderSelected i => on_data_table_header_selected i s
  | InputChanged id v => on_input_changed id v s
  | ResetFilters => action_reset_filters s
  | GenerateSymlinks ok => fst (action_generate_symlinks ok s)
  end.

Definition run (events : list event) (s : viewer) : viewer :=
  fold_left handle events s.

End InvokeAIViewer.

(* ===================================================================== *)
(** * Facts about the string operations *)
(* ===================================================================== *)

Module PyStrFacts.
Import PyStr.

Lemma lower_char_idem c : lower_char (lower_char c) = lower_char c.
Proof. destruct c as [[] [] [] [] [] [] [] []]; reflexivity. Qed.

Lemma lower_idem s : lower (lower s) = lower s.
Proof. induction s as [|c s IH]; simpl; [done|]. by rewrite lower_char_idem, IH. Qed.

Lemma lower_length s : String.length (lower s) = String.length s.
Proof. induction s; simpl; congruence. Qed.

Lemma app_assoc (a b c : string) : (a +:+ b) +:+ c = a +:+ b +:+ c.
Proof. induction a; simpl; congruence. Qed.

Lemma app_empty_r (a : string) : a +:+ "" = a.
Proof. induction a; simpl; congruence. Qed.

Lemma startswith_spec s p :
  startswith s p = true <-> exists post, s = p +:+ post.
Proof.
  revert s. induction p as [|a p IH]; intros s; simpl.
  - split; [intros _; by exists s | done].
  - destruct s as [|b s].
    + split; [done | intros [post Hp]; discriminate].
    + destruct (ascii_dec a b) as [->|Hne].
      * rewrite IH. split; intros [post Hp]; exists post; simpl in *; congruence.
      * split; [done | intros [post Hp]; simpl in Hp; congruence].
Qed.

(** [needle in hay] holds exactly when [hay] is [needle] between two
    strings. *)
Lemma contains_spec needle hay :
  contains needle hay = true <-> exists pre post, hay = pre +:+ needle +:+ post.
Proof.
  induction hay as [|c hay IH]; simpl.
  - rewrite orb_false_r, startswith_spec. split.
    + intros [post Hp]. by exists "", post.
    + intros [pre [post Hp]]. destruct pre; [by exists post|discriminate].
  - rewrite orb_true_iff, startswith_spec, IH. split.
    + intros [[post Hp]|[pre [post Hp]]].
      * by exists "", post.
      * exists (String c pre), post. simpl. by rewrite Hp.
    + intros [pre [post Hp]]. destruct pre as [|c' pre].
      * left. by exists post.
      * right. exists pre, post. simpl in Hp. congruence.
Qed.

Lemma contains_empty hay : contains "" hay = true.
Proof. destruct hay; reflexivity. Qed.

Definition chars (s : string) : list ascii := list_ascii_of_string s.

Lemma lstrip_empty s : lstrip s = "" <-> Forall (fun c => isspace c = true) (chars s).
Proof.
  induction s as [|c s IH]; simpl.
  - split; [constructor | done].
  - destruct (isspace c) eqn:Hc.
    + rewrite IH. split; [by constructor | by inversion 1].
    + split; [done | inversion 1; congruence].
Qed.

Lemma rstrip_empty s : rstrip s = "" <-> Forall (fun c => isspace c = true) (chars s).
Proof.
  induction s as [|c s IH]; simpl.
  - split; [constructor | done].
  - destruct (rstrip s) eqn:Hr.
    + destruct (isspace c) eqn:Hc.
      * split; [intros _; constructor; [done | by apply IH] | done].
      * split; [done | inversion 1; congruence].
    + split; [done|]. inversion 1 as [|? ? ? Hs]; subst. by apply IH in Hs.
Qed.

Lemma lstrip_spaces s :
  Forall (fun c => isspace c = true) (chars (lstrip s))
  <-> Forall (fun c => isspace c = true) (chars s).
Proof.
  induction s as [|c s IH]; simpl; [done|].
  destruct (isspace c) eqn:Hc; [|done].
  rewrite IH. split; [by constructor | by inversion 1].
Qed.

(** [s.strip()] is empty exactly when [s] holds white space only (the
    empty string included). *)
Lemma strip_empty s : strip s = "" <-> Forall (fun c => isspace c = true) (chars s).
Proof. unfold strip. by rewrite rstrip_empty, lstrip_spaces. Qed.

Lemma ltb_irrefl a : lt a a = false.
Proof.
  unfold lt, String.ltb.
  assert ((a ?= a)%string = Eq) as ->; [|done].
  induction a as [|c a IH]; simpl; [done|].
  unfold Ascii.compare. by rewrite N.compare_refl.
Qed.

Lemma not_lt_leb a b : lt b a = false <-> String.leb a b = true.
Proof.
  unfold lt, String.ltb, String.leb. rewrite (String.compare_antisym a b).
  destruct (b ?= a)%string; simpl; split; congruence.
Qed.

Lemma lt_leb a b : lt a b = true -> String.leb a b = true.
Proof.
  unfold lt, String.ltb, String.leb. by destruct (a ?= b)%string.
Qed.

Lemma leb_trans a b c :
  String.leb a b = true -> String.leb b c = true -> String.leb a c = true.
Proof.
  intros Hab Hbc.
  assert (String.le a c) as Hac.
  { transitivity b; unfold String.le; by apply Is_true_true. }
  by apply Is_true_true in Hac.
Qed.

(** ** Splitting and joining *)

Lemma split_nonempty sep s : split sep s <> [].
Proof.
  destruct s as [|c s]; simpl; [done|].
  destruct (ascii_dec c sep); [done|]. by destruct (split sep s).
Qed.

Lemma split_cons_other sep c s :
  c <> sep ->
  exists h t, split sep s = h :: t /\ split sep (String c s) = String c h :: t.
Proof.
  intros Hc. simpl. destruct (ascii_dec c sep); [done|].
  destruct (split sep s) as [|h t] eqn:E; [by apply split_nonempty in E|].
  by exists h, t.
Qed.

(** Splitting around a separator splits both sides. *)
Lemma split_app_sep sep a b :
  split sep (a +:+ String sep b) = split sep a ++ split sep b.
Proof.
  induction a as [|c a IH]; simpl.
  - by destruct (ascii_dec sep sep).
  - destruct (ascii_dec c sep); [by rewrite IH|].
    rewrite IH. destruct (split sep a) as [|h t] eqn:E; [|done].
    by apply split_nonempty in E.
Qed.

Lemma join_cons sep x y l :
  join sep (x :: y :: l) = x +:+ sep +:+ join sep (y :: l).
Proof. reflexivity. Qed.

(** Joining the pieces of a split gives the string back. *)
Lemma join_split sep s : join (String sep "") (split sep s) = s.
Proof.
  induction s as [|c s IH]; simpl; [done|].
  destruct (split sep s) as [|h t] eqn:E; [by apply split_nonempty in E|].
  destruct (ascii_dec c sep) as [->|Hc].
  - rewrite join_cons, IH. done.
  - destruct t as [|h' t]; simpl in *; by rewrite <- IH.
Qed.

Lemma join_app sep l k :
  l <> [] -> k <> [] ->
  join sep (l ++ k) = join sep l +:+ sep +:+ join sep k.
Proof.
  intros Hl Hk. induction l as [|x l IH]; [done|].
  destruct l as [|y l].
  - destruct k as [|z k]; [done|]. reflexivity.
  - cbn [app] in *. rewrite (join_cons sep x y (l ++ k)), IH by done.
    rewrite join_cons. by rewrite !app_assoc.
Qed.

Lemma truthy_app a b : truthy (a +:+ b) = truthy a || truthy b.
Proof. by destruct a. Qed.

Lemma truthy_join sep l :
  l <> [] -> Forall (fun x => truthy x = true) l -> truthy (join sep l) = true.
Proof.
  intros Hl Hall. destruct l as [|x l]; [done|].
  apply Forall_cons in Hall as [Hx _].
  destruct l; simpl; [done|]. by rewrite truthy_app, Hx.
Qed.

Lemma endswith_char_app a b c :
  truthy b = true -> endswith_char (a +:+ b) c = endswith_char b c.
Proof.
  intros Hb. induction a as [|x a IH]; simpl; [done|].
  rewrite IH. destruct (a +:+ b) eqn:E; [|done].
  destruct a, b; done.
Qed.

Lemma endswith_char_spec s c :
  endswith_char s c = true <-> exists s', s = s' +:+ String c "".
Proof.
  induction s as [|x s IH]; simpl.
  - split; [done|]. intros [[|? ?] ?]; done.
  - destruct s as [|y s].
    + destruct (ascii_dec x c) as [->|Hx].
      * split; [by exists ""|done].
      * split; [done|]. intros [[|? [|? ?]] ?]; simpl in *; congruence.
    + rewrite IH. split.
      * intros [s' ->]. by exists (String x s').
      * intros [[|z s'] Hs']; simpl in *; [congruence|].
        exists s'. congruence.
Qed.

Lemma startswith_char_app a b c :
  truthy a = true -> startswith (a +:+ b) (String c "") = startswith a (String c "").
Proof. destruct a; [done|]. simpl. by destruct (ascii_dec _ _). Qed.

End PyStrFacts.

(* ===================================================================== *)
(** * Facts about paths *)
(* ===================================================================== *)

Module PosixPathFacts.
Import PyStr PyStrFacts PosixPath.

(** The components [parse_path] keeps of the part after the root. *)
Definition comps (rel : string) : list string :=
  List.filter keep (split sep rel).

(** A string after which [posixpath.join] adds no separator. *)
Definition closed (s : string) : Prop :=
  s = "" \/ endswith_char s sep = true.

(** A relative path written in normal form: no leading slash, and no
    empty or ["."] component (so no doubled or trailing slash). *)
Definition rel_normal (p : string) : bool :=
  negb (startswith p "/") && forallb keep (split sep p).

Lemma comps_app_sep a b : comps (a +:+ String sep b) = comps a ++ comps b.
Proof. unfold comps. by rewrite split_app_sep, List.filter_app. Qed.

Lemma comps_app_closed a b : closed a -> comps (a +:+ b) = comps a ++ comps b.
Proof.
  intros [->|Ha]; [done|].
  apply endswith_char_spec in Ha as [a' ->].
  rewrite app_assoc. cbn [String.append].
  rewrite !comps_app_sep. cbn. by rewrite app_nil_r.
Qed.

Lemma comps_rel_normal p : rel_normal p = true -> comps p = split sep p.
Proof.
  unfold rel_normal, comps. intros [_ Hp]%andb_true_iff.
  induction (split sep p) as [|x l IH]; simpl in *; [done|].
  apply andb_true_iff in Hp as [-> Hl]. by rewrite IH.
Qed.

Lemma sep_at_0_app X Y :
  sep_at 0 (X +:+ Y) = if truthy X then sep_at 0 X else sep_at 0 Y.
Proof. by destruct X. Qed.

(** Appending text that does not start with a slash leaves the root as it
    is. *)
Lemma splitroot_app X Y :
  startswith Y "/" = false ->
  splitroot (X +:+ Y) = (fst (splitroot X), snd (splitroot X) +:+ Y).
Proof.
  intros HY.
  assert (sep_at 0 Y = false) as HY0.
  { destruct Y as [|y Y]; [done|]. unfold sep_at. simpl in *.
    destruct (ascii_dec "/" y) as [<-|]; [done|].
    by destruct (ascii_dec y sep) as [->|]. }
  destruct X as [|c1 [|c2 [|c3 X]]]; unfold splitroot, sep_at in *; simpl in *.
  - rewrite HY0. done.
  - destruct (ascii_dec c1 sep); simpl; [|done].
    destruct Y as [|y Y]; simpl in *; [done|].
    destruct (ascii_dec y sep); simpl in *; [done|done].
  - destruct (ascii_dec c1 sep); simpl; [|done].
    destruct (ascii_dec c2 sep); simpl; [|done].
    destruct Y as [|y Y]; simpl in *; [done|].
    destruct (ascii_dec y sep); simpl in *; [done|done].
  - destruct (ascii_dec c1 sep); simpl; [|done].
    destruct (ascii_dec c2 sep); simpl; [|done].
    destruct (ascii_dec c3 sep); simpl; done.
Qed.

Lemma endswith_char_cons c s x :
  truthy s = true -> endswith_char (String c s) x = endswith_char s x.
Proof. by destruct s. Qed.

Lemma splitroot_closed X : closed X -> closed (snd (splitroot X)).
Proof.
  intros [->|HX]; [by left|].
  destruct X as [|c1 [|c2 [|c3 X]]]; unfold splitroot, sep_at; simpl.
  - by left.
  - destruct (ascii_dec c1 sep); simpl; [by left|by right].
  - destruct (ascii_dec c1 sep); simpl; [|by right].
    destruct (ascii_dec c2 sep); simpl; [by left|].
    right. by rewrite endswith_char_cons in HX.
  - destruct (ascii_dec c1 sep); simpl; [|by right].
    rewrite endswith_char_cons in HX by done.
    destruct (ascii_dec c2 sep); simpl; [|by right].
    destruct (ascii_dec c3 sep); simpl; [by right|].
    right. by rewrite endswith_char_cons in HX.
Qed.

Lemma splitroot_snoc_sep b :
  truthy b = true -> endswith_char b sep = false ->
  splitroot (b +:+ "/") = (fst (splitroot b), snd (splitroot b) +:+ "/").
Proof.
  intros Hb He.
  destruct b as [|c1 [|c2 [|c3 b]]]; unfold splitroot, sep_at in *; simpl in *.
  - done.
  - destruct (ascii_dec c1 sep); simpl; done.
  - destruct (ascii_dec c1 sep); simpl; [|done].
    destruct (ascii_dec c2 sep); simpl; done.
  - destruct (ascii_dec c1 sep); simpl; [|done].
    destruct (ascii_dec c2 sep); simpl; [|done].
    destruct (ascii_dec c3 sep); simpl; done.
Qed.

(** The text [posixpath.join] has built once it has consumed [b]: [b]
    itself when no separator is due, [b] and a separator otherwise. *)
Definition opened (b : string) : string :=
  if negb (truthy b) || endswith_char b sep then b else b +:+ "/".

Lemma opened_closed b : closed (opened b).
Proof.
  unfold opened, closed. destruct b as [|c b]; [by left|]. cbn [truthy negb orb].
  destruct (endswith_char (String c b) sep) eqn:E; [by right|].
  right. by rewrite endswith_char_app.
Qed.

Lemma join_step_rel path b :
  startswith b "/" = false -> join_step path b = opened path +:+ b.
Proof.
  intros Hb. unfold join_step, opened. rewrite Hb.
  destruct (negb (truthy path) || endswith_char path sep); [done|].
  by rewrite app_assoc.
Qed.

Lemma parse_path_app Z W :
  closed Z -> truthy W = true -> startswith W "/" = false ->
  parse_path (Z +:+ W)
  = (fst (splitroot Z), comps (snd (splitroot Z)) ++ comps W).
Proof.
  intros HZ HW Hs. unfold parse_path.
  rewrite truthy_app, HW, orb_true_r. cbn [negb].
  rewrite splitroot_app by done.
  fold (comps (snd (splitroot Z) +:+ W)).
  by rewrite comps_app_closed by by apply splitroot_closed.
Qed.

(** The parts of [Path(b) / "models"]. *)
Lemma load_parts_models b :
  load_parts (truediv (Path b) "models")
  = (fst (splitroot (opened b)), comps (snd (splitroot (opened b))) ++ ["models"]).
Proof.
  unfold load_parts, truediv, Path, join. cbn [raw_paths List.app fold_left].
  rewrite join_step_rel by done.
  by rewrite parse_path_app by (done || apply opened_closed).
Qed.

(** The parts of [Path(b) / "models" / p] for a relative [p]. *)
Lemma load_parts_models_rel b p :
  startswith p "/" = false ->
  load_parts (truediv (truediv (Path b) "models") p)
  = (fst (splitroot (opened b)),
     comps (snd (splitroot (opened b))) ++ ["models"] ++ comps p).
Proof.
  intros Hp. unfold load_parts, truediv, Path, join. cbn [raw_paths List.app fold_left].
  rewrite (join_step_rel b "models") by done.
  rewrite join_step_rel by done.
  assert (opened (opened b +:+ "models") = opened b +:+ "models/") as ->.
  { unfold opened at 1. rewrite truthy_app, endswith_char_app by done.
    rewrite orb_true_r. cbn. by rewrite app_assoc. }
  rewrite app_assoc.
  rewrite parse_path_app by (done || apply opened_closed).
  change ("models/" +:+ p) with ("models" +:+ String sep p).
  by rewrite comps_app_sep.
Qed.

(** An absolute segment discards what precedes it. *)
Lemma load_parts_models_abs b p :
  startswith p "/" = true ->
  load_parts (truediv (truediv (Path b) "models") p) = load_parts (Path p).
Proof.
  intros Hp. unfold load_parts, truediv, Path, join. cbn [raw_paths List.app fold_left].
  unfold join_step at 1. by rewrite Hp.
Qed.

Lemma format_app root l k :
  l <> [] -> k <> [] ->
  format_parsed_parts root (l ++ k)
  = format_parsed_parts root l +:+ "/" +:+ PyStr.join "/" k.
Proof.
  intros Hl Hk. unfold format_parsed_parts.
  rewrite join_app by done. destruct (truthy root); [|done].
  by rewrite app_assoc.
Qed.

Lemma truthy_format_snoc root l x :
  truthy x = true -> truthy (format_parsed_parts root (l ++ [x])) = true.
Proof.
  intros Hx. unfold format_parsed_parts.
  assert (truthy (PyStr.join "/" (l ++ [x])) = true) as Hj.
  { destruct l as [|y l]; [done|].
    rewrite join_app by done. by rewrite !truthy_app, orb_true_r. }
  destruct (truthy root) eqn:Hr; [|done]. by rewrite truthy_app, Hr.
Qed.

Lemma str_models_unfold b :
  str (truediv (Path b) "models")
  = format_parsed_parts (fst (splitroot (opened b)))
      (comps (snd (splitroot (opened b))) ++ ["models"]).
Proof.
  unfold str, root, tail. rewrite load_parts_models. cbn [fst snd].
  by rewrite truthy_format_snoc.
Qed.

(** A relative path in normal form is appended as it is. *)
Lemma str_models_rel b p :
  rel_normal p = true ->
  str (truediv (truediv (Path b) "models") p)
  = str (truediv (Path b) "models") +:+ "/" +:+ p.
Proof.
  intros Hp. pose proof Hp as [Hs _]%andb_true_iff. apply negb_true_iff in Hs.
  rewrite str_models_unfold. unfold str, root, tail.
  rewrite load_parts_models_rel by done. cbn [fst snd].
  rewrite (comps_rel_normal p) by done.
  rewrite (List.app_assoc _ ["models"]).
  rewrite format_app; [|by destruct (comps _)|apply split_nonempty].
  change (PyStr.join "/" (split sep p))
    with (PyStr.join (String sep "") (split sep p)).
  rewrite join_split.
  by rewrite truthy_app, truthy_format_snoc.
Qed.

Lemma keep_truthy x : keep x = true -> truthy x = true.
Proof. unfold keep. by intros [? _]%andb_true_iff. Qed.

Lemma truthy_format root l :
  l <> [] -> Forall (fun x => truthy x = true) l ->
  truthy (format_parsed_parts root l) = true.
Proof.
  intros Hl Hall. unfold format_parsed_parts.
  destruct (truthy root) eqn:Hr; [by rewrite truthy_app, Hr|].
  by apply truthy_join.
Qed.

Lemma comps_truthy rel : Forall (fun x => truthy x = true) (comps rel).
Proof.
  unfold comps. apply Forall_forall. intros x Hx.
  apply list_elem_of_In, filter_In in Hx as [_ Hx]. by apply keep_truthy.
Qed.

(** [Path(b) / "models"] and [Path(b)] have the same root, and the
    components of the former are those of the latter and ["models"]. *)
Lemma load_parts_opened b :
  (fst (splitroot (opened b)), comps (snd (splitroot (opened b))))
  = load_parts (Path b).
Proof.
  unfold load_parts, Path. cbn [raw_paths]. unfold parse_path, opened.
  destruct (truthy b) eqn:Hb; cbn [negb orb]; [|by destruct b].
  destruct (endswith_char b sep) eqn:He.
  - by destruct (splitroot b).
  - rewrite splitroot_snoc_sep by done. cbn [fst snd].
    destruct (splitroot b) as [r rel]. cbn [fst snd]. f_equal.
    change (rel +:+ "/") with (rel +:+ String sep "").
    rewrite (comps_app_sep rel ""). cbn. by rewrite app_nil_r.
Qed.

(** When the base has a component, ["models"] is appended to its text. *)
Lemma str_models b :
  tail (Path b) <> [] ->
  str (truediv (Path b) "models") = str (Path b) +:+ "/models".
Proof.
  intros Ht. rewrite str_models_unfold. unfold str, root, tail in *.
  pose proof (load_parts_opened b) as Hl.
  destruct (load_parts (Path b)) as [r t] eqn:E. cbn [fst snd] in *.
  injection Hl as -> ->.
  rewrite format_app by done. cbn [PyStr.join].
  rewrite truthy_format; [done|done|].
  pose proof (load_parts_opened b) as Hl. rewrite E in Hl.
  injection Hl as _ <-. apply comps_truthy.
Qed.

End PosixPathFacts.

(* ===================================================================== *)
(** * Facts about [list.sort] *)
(* ===================================================================== *)

Section ListSortFacts.
Context {A : Type} (key : A -> string).

(** Ascending and descending order of the keys. *)
Definition key_le (x y : A) : Prop := String.leb (key x) (key y) = true.
Definition key_ge (x y : A) : Prop := String.leb (key y) (key x) = true.

(** The order [list_sort] is expected to produce. *)
Definition in_order (reverse : bool) : A -> A -> Prop :=
  if reverse then key_ge else key_le.

(** The elements whose key is [k], in the order of the list. *)
Definition with_key (k : string) (l : list A) : list A :=
  List.filter (fun x => String.eqb (key x) k) l.

Lemma insert_perm x l : Permutation (insert key x l) (x :: l).
Proof.
  induction l as [|y l IH]; simpl; [done|].
  destruct (PyStr.lt (key y) (key x)); [|done].
  rewrite IH. apply perm_swap.
Qed.

Lemma stable_sort_perm l : Permutation (stable_sort key l) l.
Proof.
  induction l as [|x l IH]; simpl; [done|].
  by rewrite insert_perm, IH.
Qed.

Lemma list_sort_perm reverse l : Permutation (list_sort key reverse l) l.
Proof.
  unfold list_sort. destruct reverse; [|apply stable_sort_perm].
  by rewrite <- Permutation_rev, stable_sort_perm, <- Permutation_rev.
Qed.

Lemma insert_sorted x l :
  StronglySorted key_le l -> StronglySorted key_le (insert key x l).
Proof.
  induction l as [|y l IH]; simpl; intros Hs.
  - repeat constructor.
  - apply StronglySorted_cons in Hs as [Hy Hl].
    destruct (PyStr.lt (key y) (key x)) eqn:Hlt.
    + constructor; [by apply IH|].
      rewrite insert_perm. constructor; [|done].
      by apply PyStrFacts.lt_leb.
    + apply PyStrFacts.not_lt_leb in Hlt.
      constructor; [by constructor|].
      constructor; [done|].
      eapply Forall_impl; [exact Hy|].
      intros z Hz. unfold key_le in *. by eapply PyStrFacts.leb_trans.
Qed.

Lemma stable_sort_sorted l : StronglySorted key_le (stable_sort key l).
Proof.
  induction l as [|x l IH]; simpl; [constructor | by apply insert_sorted].
Qed.

Lemma StronglySorted_rev_flip (R : relation A) l :
  StronglySorted R l -> StronglySorted (flip R) (rev l).
Proof.
  induction 1 as [|x l Hl IH Hx]; simpl; [constructor|].
  apply StronglySorted_app_2; [|done|repeat constructor].
  intros x1 x2 Hx1 Hx2. apply list_elem_of_singleton in Hx2 as ->.
  rewrite Forall_forall in Hx. apply Hx.
  apply list_elem_of_In, in_rev in Hx1. by apply list_elem_of_In.
Qed.

(** [list_sort] orders the keys, upwards or downwards. *)
Lemma list_sort_sorted reverse l :
  StronglySorted (in_order reverse) (list_sort key reverse l).
Proof.
  unfold list_sort, in_order. destruct reverse; [|apply stable_sort_sorted].
  apply (StronglySorted_rev_flip key_le), stable_sort_sorted.
Qed.

Lemma insert_with_key k x l :
  with_key k (insert key x l) = with_key k (x :: l).
Proof.
  induction l as [|y l IH]; simpl; [done|].
  destruct (PyStr.lt (key y) (key x)) eqn:Hlt; [|done].
  simpl. rewrite IH. simpl.
  destruct (String.eqb_spec (key y) k) as [Hy|Hy];
    destruct (String.eqb_spec (key x) k) as [Hx|Hx]; try done.
  rewrite Hy, Hx, PyStrFacts.ltb_irrefl in Hlt. done.
Qed.

Lemma stable_sort_with_key k l :
  with_key k (stable_sort key l) = with_key k l.
Proof.
  induction l as [|x l IH]; simpl; [done|].
  rewrite insert_with_key. simpl. by rewrite IH.
Qed.

(** [list_sort] is stable in both directions: the elements that share a
    key keep the order they had. *)
Lemma list_sort_stable reverse k l :
  with_key k (list_sort key reverse l) = with_key k l.
Proof.
  unfold list_sort. destruct reverse; [|apply stable_sort_with_key].
  unfold with_key. rewrite List.filter_rev.
  fold (with_key k (stable_sort key (rev l))).
  rewrite stable_sort_with_key. unfold with_key.
  by rewrite List.filter_rev, rev_involutive.
Qed.

Lemma in_order_antisym reverse x y :
  in_order reverse x y -> in_order reverse y x -> key x = key y.
Proof.
  unfold in_order, key_ge, key_le.
  destruct reverse; intros H1 H2; by apply String.leb_antisym.
Qed.

Lemma with_key_head k x l :
  with_key k (x :: l) = if String.eqb (key x) k then x :: with_key k l else with_key k l.
Proof. reflexivity. Qed.

Lemma with_key_elem_of k x l : x ∈ with_key k l <-> x ∈ l /\ key x = k.
Proof.
  unfold with_key. rewrite !list_elem_of_In, filter_In.
  by rewrite String.eqb_eq.
Qed.

(** The contract determines the result: two lists in the same order of
    keys that agree, key by key, on the elements with that key are equal.
    So every stable sort returns the list [list_sort] returns, and the
    insertion sort above stands for CPython's merge sort. *)
Lemma stable_sorted_unique reverse l1 l2 :
  StronglySorted (in_order reverse) l1 ->
  StronglySorted (in_order reverse) l2 ->
  (forall k, with_key k l1 = with_key k l2) ->
  l1 = l2.
Proof.
  revert l2. induction l1 as [|x l1 IH]; intros l2 Hs1 Hs2 Hk.
  - destruct l2 as [|y l2]; [done|].
    specialize (Hk (key y)). rewrite with_key_head, String.eqb_refl in Hk. done.
  - destruct l2 as [|y l2].
    { specialize (Hk (key x)). rewrite with_key_head, String.eqb_refl in Hk. done. }
    apply StronglySorted_cons in Hs1 as [Hx Hs1].
    apply StronglySorted_cons in Hs2 as [Hy Hs2].
    rewrite Forall_forall in Hx, Hy.
    assert (key x = key y) as Hxy.
    { assert (in_order reverse x y) as Hle1.
      { assert (y ∈ x :: l1) as Hin.
        { apply (with_key_elem_of (key y)). rewrite Hk.
          apply with_key_elem_of. split; [left|done]. }
        apply elem_of_cons in Hin as [->|Hin]; [|by apply Hx].
        unfold in_order, key_ge, key_le. destruct reverse;
          apply PyStrFacts.not_lt_leb, PyStrFacts.ltb_irrefl. }
      assert (in_order reverse y x) as Hle2.
      { assert (x ∈ y :: l2) as Hin.
        { apply (with_key_elem_of (key x)). rewrite <- Hk.
          apply with_key_elem_of. split; [left|done]. }
        apply elem_of_cons in Hin as [->|Hin]; [|by apply Hy].
        unfold in_order, key_ge, key_le. destruct reverse;
          apply PyStrFacts.not_lt_leb, PyStrFacts.ltb_irrefl. }
      by apply (in_order_antisym reverse). }
    pose proof (Hk (key x)) as Hkx.
    rewrite !with_key_head, <- Hxy, String.eqb_refl in Hkx.
    injection Hkx as <- Hkx. f_equal. apply IH; [done|done|].
    intros k. specialize (Hk k). rewrite !with_key_head in Hk.
    destruct (String.eqb (key x) k) eqn:E; [|done].
    apply String.eqb_eq in E as <-. done.
Qed.

Lemma list_sort_unique reverse l l' :
  StronglySorted (in_order reverse) l' ->
  (forall k, with_key k l' = with_key k l) ->
  l' = list_sort key reverse l.
Proof.
  intros Hs Hk. apply (stable_sorted_unique reverse); [done|apply list_sort_sorted|].
  intros k. by rewrite Hk, list_sort_stable.
Qed.

End ListSortFacts.

(* ===================================================================== *)
(** * Facts about the filter and sort engine *)
(* ===================================================================== *)

Module ViewerFacts.
Import ModelDatabase InvokeAIViewer.

(** [update_status] writes to the status bar only. *)
Lemma update_status_frame s :
  let s' := update_status s in
  data_path s' = data_path s /\ all_models s' = all_models s
  /\ filtered_models s' = filtered_models s
  /\ sort_column s' = sort_column s /\ sort_reverse s' = sort_reverse s
  /\ filter_name s' = filter_name s /\ filter_type s' = filter_type s
  /\ filter_subtype s' = filter_subtype s
  /\ input_name s' = input_name s /\ input_type s' = input_type s
  /\ input_subtype s' = input_subtype s
  /\ table_columns s' = table_columns s /\ table_rows s' = table_rows s.
Proof. unfold update_status. by destruct (Nat.eqb _ _). Qed.

(** The records that pass the three filters, in the order of
    [all_models]: the list [apply_filters] sorts. *)
Definition matching (s : viewer) : list model :=
  filter_step (filter_subtype s) col_subtype
    (filter_step (filter_type s) col_type
       (filter_step (filter_name s) col_name (all_models s))).

Lemma apply_filters_filtered s :
  filtered_models (apply_filters s)
  = list_sort (sort_key (sort_column s)) (sort_reverse s) (matching s).
Proof.
  unfold apply_filters. cbv zeta.
  match goal with |- context [update_status ?x] =>
    destruct (update_status_frame x) as (_ & _ & -> & _)
  end.
  reflexivity.
Qed.

(** [apply_filters] leaves everything but the visible list, the table
    rows and the status bar as it is. *)
Lemma apply_filters_frame s :
  let s' := apply_filters s in
  data_path s' = data_path s /\ all_models s' = all_models s
  /\ sort_column s' = sort_column s /\ sort_reverse s' = sort_reverse s
  /\ filter_name s' = filter_name s /\ filter_type s' = filter_type s
  /\ filter_subtype s' = filter_subtype s
  /\ input_name s' = input_name s /\ input_type s' = input_type s
  /\ input_subtype s' = input_subtype s
  /\ table_columns s' = table_columns s.
Proof.
  unfold apply_filters. cbv zeta.
  match goal with |- context [update_status ?x] =>
    destruct (update_status_frame x)
      as (-> & -> & _ & -> & -> & -> & -> & -> & -> & -> & -> & -> & _)
  end.
  done.
Qed.

Lemma filter_step_elem_of pattern c l m :
  m ∈ filter_step pattern c l
  <-> m ∈ l /\ PyStr.contains pattern (PyStr.lower (getitem m c)) = true.
Proof.
  unfold filter_step. destruct pattern as [|a p]; cbn [PyStr.truthy].
  - rewrite PyStrFacts.contains_empty. tauto.
  - by rewrite !list_elem_of_In, filter_In.
Qed.

Lemma filter_step_sublist pattern c l : filter_step pattern c l `sublist_of` l.
Proof.
  unfold filter_step. destruct (PyStr.truthy pattern); [|done].
  induction l as [|x l IH]; simpl; [done|].
  destruct (PyStr.contains _ _); by constructor.
Qed.

Lemma matching_sublist s : matching s `sublist_of` all_models s.
Proof.
  unfold matching.
  etrans; [apply filter_step_sublist|].
  etrans; apply filter_step_sublist.
Qed.

(** A record passes when each stored filter occurs in the lower-cased
    field it constrains. *)
Definition passes (fname ftype fsubtype : string) (m : model) : Prop :=
  PyStr.contains fname (PyStr.lower (name m)) = true
  /\ PyStr.contains ftype (PyStr.lower (type m)) = true
  /\ PyStr.contains fsubtype (PyStr.lower (subtype m)) = true.

Lemma matching_elem_of s m :
  m ∈ matching s
  <-> m ∈ all_models s /\ passes (filter_name s) (filter_type s) (filter_subtype s) m.
Proof.
  unfold matching, passes. rewrite !filter_step_elem_of. simpl. tauto.
Qed.

Lemma apply_filters_elem_of s m :
  m ∈ filtered_models (apply_filters s)
  <-> m ∈ all_models s /\ passes (filter_name s) (filter_type s) (filter_subtype s) m.
Proof.
  rewrite apply_filters_filtered, <- matching_elem_of.
  by rewrite list_sort_perm.
Qed.

Lemma apply_filters_submseteq s :
  filtered_models (apply_filters s) ⊆+ all_models s.
Proof.
  rewrite apply_filters_filtered, list_sort_perm.
  apply sublist_submseteq, matching_sublist.
Qed.

(** ** The handlers *)

(** The assignment [on_input_changed] makes before it recomputes. *)
Definition store_filter (input_id value : string) (s : viewer) : viewer :=
  if String.eqb input_id "input_name"
  then set_filters (PyStr.lower value) (filter_type s) (filter_subtype s) s
  else if String.eqb input_id "input_type"
  then set_filters (filter_name s) (PyStr.lower value) (filter_subtype s) s
  else if String.eqb input_id "input_subtype"
  then set_filters (filter_name s) (filter_type s) (PyStr.lower value) s
  else s.

Lemma on_input_changed_unfold input_id value s :
  on_input_changed input_id value s = apply_filters (store_filter input_id value s).
Proof. reflexivity. Qed.

Lemma store_filter_frame input_id value s :
  let s' := store_filter input_id value s in
  all_models s' = all_models s /\ sort_column s' = sort_column s
  /\ sort_reverse s' = sort_reverse s.
Proof. unfold store_filter. by repeat destruct (String.eqb _ _). Qed.

(** The three filter boxes filled in turn. *)
Definition typed (fname ftype fsubtype : string) (s : viewer) : viewer :=
  on_input_changed "input_subtype" fsubtype
    (on_input_changed "input_type" ftype
       (on_input_changed "input_name" fname s)).

Lemma typed_fields fname ftype fsubtype s :
  let s' := typed fname ftype fsubtype s in
  filter_name s' = PyStr.lower fname /\ filter_type s' = PyStr.lower ftype
  /\ filter_subtype s' = PyStr.lower fsubtype
  /\ all_models s' = all_models s
  /\ sort_column s' = sort_column s /\ sort_reverse s' = sort_reverse s.
Proof.
  unfold typed. rewrite !on_input_changed_unfold.
  set (s1 := apply_filters (store_filter "input_name" fname s)).
  set (s2 := apply_filters (store_filter "input_type" ftype s1)).
  destruct (apply_filters_frame (store_filter "input_name" fname s))
    as (_ & H1a & H1c & H1r & H1n & H1t & H1s & _). fold s1 in H1a, H1c, H1r, H1n, H1t, H1s.
  destruct (apply_filters_frame (store_filter "input_type" ftype s1))
    as (_ & H2a & H2c & H2r & H2n & H2t & H2s & _). fold s2 in H2a, H2c, H2r, H2n, H2t, H2s.
  destruct (apply_filters_frame (store_filter "input_subtype" fsubtype s2))
    as (_ & -> & -> & -> & -> & -> & -> & _).
  cbn in *. repeat split; congruence.
Qed.

Lemma typed_filtered fname ftype fsubtype s :
  filtered_models (typed fname ftype fsubtype s)
  = list_sort (sort_key (sort_column s)) (sort_reverse s)
      (matching (set_filters (PyStr.lower fname) (PyStr.lower ftype)
                   (PyStr.lower fsubtype) s)).
Proof.
  unfold typed. rewrite !on_input_changed_unfold.
  set (s1 := apply_filters (store_filter "input_name" fname s)).
  set (s2 := apply_filters (store_filter "input_type" ftype s1)).
  destruct (apply_filters_frame (store_filter "input_name" fname s))
    as (_ & H1a & H1c & H1r & H1n & H1t & H1s & _). fold s1 in H1a, H1c, H1r, H1n, H1t, H1s.
  destruct (apply_filters_frame (store_filter "input_type" ftype s1))
    as (_ & H2a & H2c & H2r & H2n & H2t & H2s & _). fold s2 in H2a, H2c, H2r, H2n, H2t, H2s.
  rewrite apply_filters_filtered. unfold matching. cbn in *.
  by rewrite H2a, H2c, H2r, H2n, H2t, H1a, H1c, H1r, H1n.
Qed.

(** The column index of each sortable column. *)
Definition index_of (c : column) : Z :=
  match c with col_name => 0 | col_type => 1 | col_subtype => 2 end.

Lemma column_map_index_of c : column_map (index_of c) = Some c.
Proof. by destruct c. Qed.

Lemma column_map_None i : column_map i = None <-> i < 0 \/ 2 < i.
Proof.
  destruct i as [|p|p]; simpl.
  - split; [done | lia].
  - destruct p as [[]|[]|]; simpl; split; first [done | lia].
  - split; [lia | done].
Qed.

(** The sort state a valid header click leaves. *)
Definition toggled (c : column) (s : viewer) : viewer :=
  if column_eqb (sort_column s) c
  then set_sort (sort_column s) (negb (sort_reverse s)) s
  else set_sort c false s.

Lemma header_selected_sort c s :
  let s' := on_data_table_header_selected (index_of c) s in
  sort_column s' = sort_column (toggled c s)
  /\ sort_reverse s' = sort_reverse (toggled c s)
  /\ all_models s' = all_models s
  /\ filter_name s' = filter_name s /\ filter_type s' = filter_type s
  /\ filter_subtype s' = filter_subtype s
  /\ filtered_models s'
     = list_sort (sort_key (sort_column (toggled c s))) (sort_reverse (toggled c s))
         (matching s).
Proof.
  unfold on_data_table_header_selected. rewrite column_map_index_of. cbv zeta.
  fold (toggled c s).
  match goal with |- context [apply_filters ?x] =>
    destruct (apply_filters_frame x) as (_ & -> & -> & -> & -> & -> & -> & _);
    rewrite (apply_filters_filtered x)
  end.
  unfold toggled. by destruct (column_eqb _ _).
Qed.

Lemma toggled_sort c s :
  sort_column (toggled c s) = c
  /\ sort_reverse (toggled c s)
     = (if column_eqb (sort_column s) c then negb (sort_reverse s) else false).
Proof.
  unfold toggled. destruct (column_eqb _ _) eqn:E; simpl; [|done].
  split; [|done]. by destruct (sort_column s), c.
Qed.

(** What a click on the header of column [c] leaves behind. *)
Lemma click_spec c s s' :
  s' = on_data_table_header_selected (index_of c) s ->
  sort_column s' = c
  /\ sort_reverse s'
     = (if column_eqb (sort_column s) c then negb (sort_reverse s) else false)
  /\ matching s' = matching s
  /\ filtered_models s' = list_sort (sort_key c) (sort_reverse s') (matching s).
Proof.
  intros ->.
  destruct (header_selected_sort c s) as (Hc & Hr & Ha & Hn & Ht & Hs & Hf).
  destruct (toggled_sort c s) as (Hc' & Hr').
  rewrite Hf, Hc, Hr, Hc', Hr'. repeat split.
  unfold matching. by rewrite Ha, Hn, Ht, Hs.
Qed.

(** Two and three clicks on the type column from the default sort
    state. *)
Lemma type_clicks s0 s1 s2 s3 :
  sort_column s0 = col_name ->
  s1 = on_data_table_header_selected 1 s0 ->
  s2 = on_data_table_header_selected 1 s1 ->
  s3 = on_data_table_header_selected 1 s2 ->
  let key := sort_key col_type in
  (sort_column s2 = col_type /\ sort_reverse s2 = true
   /\ Permutation (filtered_models s2) (matching s0)
   /\ StronglySorted (key_ge key) (filtered_models s2)
   /\ forall k, with_key key k (filtered_models s2) = with_key key k (matching s0))
  /\ (sort_column s3 = col_type /\ sort_reverse s3 = false
      /\ Permutation (filtered_models s3) (matching s0)
      /\ StronglySorted (key_le key) (filtered_models s3)
      /\ forall k, with_key key k (filtered_models s3) = with_key key k (matching s0)).
Proof.
  intros H0c E1 E2 E3 key.
  destruct (click_spec col_type s0 s1 E1) as (H1c & H1r & H1m & _).
  destruct (click_spec col_type s1 s2 E2) as (H2c & H2r & H2m & H2f).
  destruct (click_spec col_type s2 s3 E3) as (H3c & H3r & H3m & H3f).
  rewrite H0c in H1r. rewrite H1c in H2r. rewrite H2c in H3r.
  cbn [column_eqb] in H1r, H2r, H3r.
  rewrite H1r in H2r. cbn [negb] in H2r. rewrite H2r in H3r. cbn [negb] in H3r.
  rewrite H2m, H1m in H3f. rewrite H1m in H2f.
  rewrite H2r in H2f. rewrite H3r in H3f.
  clear E1 E2 E3.
  split; (split; [assumption|]); (split; [assumption|]).
  + rewrite H2f. split; [apply list_sort_perm|].
    split; [apply (list_sort_sorted key true)|].
    intros k. apply list_sort_stable.
  + rewrite H3f. split; [apply list_sort_perm|].
    split; [apply (list_sort_sorted key false)|].
    intros k. apply list_sort_stable.
Qed.

(** [action_generate_symlinks] writes to the status bar only. *)
Lemma generate_symlinks_frame ok s :
  let s' := fst (action_generate_symlinks ok s) in
  all_models s' = all_models s /\ filtered_models s' = filtered_models s
  /\ sort_column s' = sort_column s /\ sort_reverse s' = sort_reverse s
  /\ filter_name s' = filter_name s /\ filter_type s' = filter_type s
  /\ filter_subtype s' = filter_subtype s.
Proof.
  unfold action_generate_symlinks.
  destruct (filtered_models s) eqn:E; [by rewrite <- E|].
  destruct (symlinks_of _ _); [by rewrite <- E|]. destruct ok; by rewrite <- E.
Qed.

End ViewerFacts.

(* ===================================================================== *)
(** * Properties of the filter and sort engine *)
(* ===================================================================== *)

Import ModelDatabase InvokeAIViewer ViewerFacts.

(** A state the application can be in: mounted on some database, then
    driven by any sequence of events. *)
Definition reached `{Builtins} (dp : PosixPath.t) (db : database) (events : list event) : viewer :=
  run events (on_mount db (init dp)).

(** The three records of the specification's example. *)
Definition example_visible : list model :=
  [ mk_model "A" "lora" "sdxl" "" "x/a.pt";
    mk_model "B" "lora" "sdxl" "" "";
    mk_model "C" "lora" "sdxl" "" "y/c.pt" ].

(** A state that shows [visible], with the data directory [base]. *)
Definition showing (base : string) (visible : list model) : viewer :=
  set_models visible visible (init (PosixPath.Path base)).

Lemma handle_all_models s e : all_models (handle s e) = all_models s.
Proof.
  destruct e as [i|id v| |ok]; simpl.
  - unfold on_data_table_header_selected.
    destruct (column_map i); [|done]. cbv zeta.
    match goal with |- context [apply_filters ?x] =>
      destruct (apply_filters_frame x) as (_ & -> & _)
    end.
    by destruct (column_eqb _ _).
  - rewrite on_input_changed_unfold.
    destruct (apply_filters_frame (store_filter id v s)) as (_ & -> & _).
    apply store_filter_frame.
  - unfold action_reset_filters. cbv zeta. simpl.
    match goal with |- context [apply_filters ?x] =>
      by destruct (apply_filters_frame x) as (_ & -> & _)
    end.
  - by destruct (generate_symlinks_frame ok s) as (-> & _).
Qed.

Lemma handle_filters_lower s e :
  PyStr.lower (filter_name s) = filter_name s ->
  PyStr.lower (filter_type s) = filter_type s ->
  PyStr.lower (filter_subtype s) = filter_subtype s ->
  let s' := handle s e in
  PyStr.lower (filter_name s') = filter_name s'
  /\ PyStr.lower (filter_type s') = filter_type s'
  /\ PyStr.lower (filter_subtype s') = filter_subtype s'.
Proof.
  intros Hn Ht Hs. destruct e as [i|id v| |ok]; simpl.
  - unfold on_data_table_header_selected.
    destruct (column_map i); [|done]. cbv zeta.
    match goal with |- context [apply_filters ?x] =>
      destruct (apply_filters_frame x) as (_ & _ & _ & _ & -> & -> & -> & _)
    end.
    by destruct (column_eqb _ _).
  - rewrite on_input_changed_unfold.
    destruct (apply_filters_frame (store_filter id v s))
      as (_ & _ & _ & _ & -> & -> & -> & _).
    unfold store_filter.
    repeat destruct (String.eqb _ _); simpl; by rewrite ?PyStrFacts.lower_idem.
  - unfold action_reset_filters. cbv zeta. simpl.
    match goal with |- context [apply_filters ?x] =>
      by destruct (apply_filters_frame x) as (_ & _ & _ & _ & -> & -> & -> & _)
    end.
  - by destruct (generate_symlinks_frame ok s) as (_ & _ & _ & _ & -> & -> & -> ).
Qed.

Lemma on_mount_fields `{Builtins} db dp :
  let s := on_mount db (init dp) in
  filter_name s = "" /\ filter_type s = "" /\ filter_subtype s = ""
  /\ sort_column s = col_name /\ sort_reverse s = false
  /\ filtered_models s = all_models s.
Proof.
  unfold on_mount. cbv zeta. destruct (load_models db) as [e|models]; [done|].
  match goal with |- context [update_status ?x] =>
    by destruct (update_status_frame x)
      as (_ & -> & -> & -> & -> & -> & -> & -> & _)
  end.
Qed.

(** In every state the application reaches the stored filters are in
    lower case. *)
Lemma reached_filters_lower `{Builtins} dp db events :
  let s := reached dp db events in
  PyStr.lower (filter_name s) = filter_name s
  /\ PyStr.lower (filter_type s) = filter_type s
  /\ PyStr.lower (filter_subtype s) = filter_subtype s.
Proof.
  unfold reached, run. cbv zeta.
  induction events as [|e events IH] using rev_ind.
  - cbn [fold_left]. destruct (on_mount_fields db dp) as (-> & -> & -> & _). done.
  - rewrite fold_left_app. simpl. destruct IH as (Hn & Ht & Hs).
    by apply handle_filters_lower.
Qed.

(** C1. After recomputation a record of [all_models] is visible if and
    only if the lower-cased name filter occurs in its lower-cased name and
    the lower-cased type filter in its lower-cased type and the lower-cased
    subtype filter in its lower-cased subtype.  This holds for the filters
    of every state the application reaches, and for every three texts typed
    in the filter boxes of any state; an empty filter occurs in every
    field. *)
Theorem visible_iff_all_filters_match :
  (forall (B : Builtins) dp db events m,
     let s := reached dp db events in
     m ∈ filtered_models (apply_filters s)
     <-> m ∈ all_models s
         /\ passes (PyStr.lower (filter_name s)) (PyStr.lower (filter_type s))
              (PyStr.lower (filter_subtype s)) m)
  /\ (forall s fname ftype fsubtype m,
        m ∈ filtered_models (typed fname ftype fsubtype s)
        <-> m ∈ all_models s
            /\ PyStr.contains (PyStr.lower fname) (PyStr.lower (name m)) = true
            /\ PyStr.contains (PyStr.lower ftype) (PyStr.lower (type m)) = true
            /\ PyStr.contains (PyStr.lower fsubtype) (PyStr.lower (subtype m)) = true)
  /\ (forall field, PyStr.contains (PyStr.lower "") (PyStr.lower field) = true).
Proof.
  split; [|split].
  - intros B dp db events m s.
    destruct (reached_filters_lower dp db events) as (Hn & Ht & Hs).
    fold s in Hn, Ht, Hs. rewrite Hn, Ht, Hs.
    apply apply_filters_elem_of.
  - intros s fname ftype fsubtype m.
    rewrite typed_filtered, list_sort_perm, matching_elem_of. reflexivity.
  - intros field. apply PyStrFacts.contains_empty.
Qed.

(** [type_clicks] with the sort key written out. *)
Lemma type_clicks_lower_type s0 s1 s2 s3 :
  sort_column s0 = col_name ->
  s1 = on_data_table_header_selected 1 s0 ->
  s2 = on_data_table_header_selected 1 s1 ->
  s3 = on_data_table_header_selected 1 s2 ->
  let lower_type m := PyStr.lower (type m) in
  let same_type k m := String.eqb (lower_type m) k in
  (sort_column s2 = col_type /\ sort_reverse s2 = true
   /\ Permutation (filtered_models s2) (matching s0)
   /\ StronglySorted
        (fun a b => String.leb (lower_type b) (lower_type a) = true)
        (filtered_models s2)
   /\ forall k, List.filter (same_type k) (filtered_models s2)
                = List.filter (same_type k) (matching s0))
  /\ (sort_column s3 = col_type /\ sort_reverse s3 = false
      /\ Permutation (filtered_models s3) (matching s0)
      /\ StronglySorted
           (fun a b => String.leb (lower_type a) (lower_type b) = true)
           (filtered_models s3)
      /\ forall k, List.filter (same_type k) (filtered_models s3)
                   = List.filter (same_type k) (matching s0)).
Proof.
  intros H0 E1 E2 E3 lower_type same_type.
  destruct (type_clicks s0 s1 s2 s3 H0 E1 E2 E3)
    as ((Hc2 & Hr2 & Hp2 & Hs2 & Hk2) & (Hc3 & Hr3 & Hp3 & Hs3 & Hk3)).
  clear E1 E2 E3.
  split; (split; [assumption|]); (split; [assumption|]); (split; [assumption|]).
  - split; [exact Hs2 | exact Hk2].
  - split; [exact Hs3 | exact Hk3].
Qed.

(** C2. A click on the header of the current sort column flips
    [sort_reverse] and keeps [sort_column]; a click on another column
    makes it the sort column and sets [sort_reverse] to [False].  From the
    default sort state (name, not reversed), two clicks on the type column
    show the matching records in descending order of the lower-cased type
    and a third click shows them in ascending order, the lower-cased types
    being compared as strings; either way the records whose lower-cased
    types are equal keep their relative order. *)
Theorem header_click_toggles_sort :
  (forall s c,
     let s' := on_data_table_header_selected (index_of c) s in
     column_map (index_of c) = Some c
     /\ sort_column s' = c
     /\ sort_reverse s'
        = (if column_eqb (sort_column s) c then negb (sort_reverse s) else false))
  /\ (forall s,
        let s0 := set_sort col_name false s in
        let s2 := on_data_table_header_selected 1 (on_data_table_header_selected 1 s0) in
        let s3 := on_data_table_header_selected 1 s2 in
        let lower_type m := PyStr.lower (type m) in
        let same_type k m := String.eqb (lower_type m) k in
        (sort_column s2 = col_type /\ sort_reverse s2 = true
         /\ Permutation (filtered_models s2) (matching s)
         /\ StronglySorted
              (fun a b => String.leb (lower_type b) (lower_type a) = true)
              (filtered_models s2)
         /\ forall k, List.filter (same_type k) (filtered_models s2)
                      = List.filter (same_type k) (matching s))
        /\ (sort_column s3 = col_type /\ sort_reverse s3 = false
            /\ Permutation (filtered_models s3) (matching s)
            /\ StronglySorted
                 (fun a b => String.leb (lower_type a) (lower_type b) = true)
                 (filtered_models s3)
            /\ forall k, List.filter (same_type k) (filtered_models s3)
                         = List.filter (same_type k) (matching s))).
Proof.
  split.
  - intros s c s'. split; [apply column_map_index_of|].
    destruct (header_selected_sort c s) as (Hc & Hr & _). fold s' in Hc, Hr.
    destruct (toggled_sort c s) as (Hc' & Hr'). by rewrite Hc, Hr.
  - intros s s0 s2 s3 lower_type same_type.
    apply (type_clicks_lower_type s0 (on_data_table_header_selected 1 s0) s2 s3
             eq_refl eq_refl eq_refl eq_refl).
Qed.


(* ===================================================================== *)
(** * Properties of the symlink generator *)
(* ===================================================================== *)

Import PosixPathFacts.

(** A path the generator skips: empty, or white space only. *)
Definition blank (p : string) : Prop :=
  Forall (fun c => PyStr.isspace c = true) (PyStrFacts.chars p).

(** The command as the specification spells it: the base, ["/models/"] and
    the stored path, as they are. *)
Definition literal_command (base p : string) : string :=
  "ln -s " +:+ quoted (base +:+ "/models/" +:+ p) +:+ " .".

Lemma usable_path_false p : usable_path p = false <-> blank p.
Proof.
  unfold usable_path, blank. rewrite <- PyStrFacts.strip_empty.
  destruct p as [|c p]; [done|]. cbn [PyStr.truthy andb].
  by destruct (PyStr.strip (String c p)).
Qed.

Lemma usable_path_true p : usable_path p = true <-> ~ blank p.
Proof. rewrite <- usable_path_false. by destruct (usable_path p). Qed.

(** One command for each record with a usable path, in the order of the
    records. *)
Lemma symlinks_of_map dp models :
  symlinks_of dp models
  = map (fun m => symlink_command dp (path m))
      (List.filter (fun m => usable_path (path m)) models).
Proof.
  unfold symlinks_of. induction models as [|m models IH]; simpl; [done|].
  rewrite IH. by destruct (usable_path (path m)).
Qed.

Lemma symlinks_of_nil dp models :
  symlinks_of dp models = [] <-> Forall (fun m => blank (path m)) models.
Proof.
  rewrite symlinks_of_map. induction models as [|m models IH]; simpl.
  - split; [constructor|done].
  - destruct (usable_path (path m)) eqn:E; simpl.
    + split; [done|]. intros [Hm _]%Forall_cons.
      apply usable_path_false in Hm. congruence.
    + rewrite IH, Forall_cons. apply usable_path_false in E. tauto.
Qed.

(** C4, as stated, fails: for a stored path that is absolute the command
    links to that path itself, not to a path under [<base>/models/]; and a
    stored path with a doubled slash is not emitted as it is stored. *)
Lemma symlink_command_not_literal :
  snd (action_generate_symlinks true
         (showing "/data" [mk_model "A" "lora" "sdxl" "" "/abs/a.pt"]))
  = Some ("ln -s " +:+ quoted "/abs/a.pt" +:+ " .")
  /\ symlink_command (PosixPath.Path "/data") "/abs/a.pt"
     <> literal_command "/data" "/abs/a.pt"
  /\ symlink_command (PosixPath.Path "/data") "x//a.pt" <> literal_command "/data" "x//a.pt".
Proof. split; [reflexivity|]. split; discriminate. Qed.

(** C4, amended. For a non-empty visible list the handler hands to the
    clipboard one command per record whose path is not blank, in the order
    of the visible records, joined by newlines.  The command of a record
    is [ln -s "<P>" .] where [<P>] is the text of the path
    [data_path / "models" / path]; when the data directory has at least one
    component and the stored path is relative and in normal form, [<P>] is
    the text of the data directory, ["/models/"] and the stored path.  An
    absolute stored path is linked as it is.  For the example of the
    specification the commands are the two for A and C. *)
Theorem symlink_commands_in_order (base : string) (visible : list model) :
  let dp := PosixPath.Path base in
  symlinks_of dp visible
  = map (fun m => symlink_command dp (path m))
      (List.filter (fun m => usable_path (path m)) visible)
  /\ (forall p, usable_path p = true <-> ~ blank p)
  /\ (forall ok,
        visible <> [] -> symlinks_of dp visible <> [] ->
        snd (action_generate_symlinks ok (showing base visible))
        = Some (PyStr.join newline (symlinks_of dp visible)))
  /\ (forall p,
        symlink_command dp p
        = "ln -s " +:+ quoted (PosixPath.str (PosixPath.truediv (PosixPath.truediv dp "models") p)) +:+ " .")
  /\ (forall p,
        PosixPath.tail dp <> [] -> rel_normal p = true ->
        symlink_command dp p = literal_command (PosixPath.str dp) p)
  /\ (forall p,
        PyStr.startswith p "/" = true ->
        symlink_command dp p = "ln -s " +:+ quoted (PosixPath.str (PosixPath.Path p)) +:+ " .")
  /\ symlinks_of (PosixPath.Path "/data") example_visible
     = [literal_command "/data" "x/a.pt"; literal_command "/data" "y/c.pt"].
Proof.
  cbv zeta. split; [apply symlinks_of_map|].
  split; [apply usable_path_true|].
  split.
  { intros ok Hv Hs. unfold action_generate_symlinks, showing.
    cbn [filtered_models set_models data_path init].
    destruct visible as [|m l]; [done|].
    destruct (symlinks_of (PosixPath.Path base) (m :: l)); [done|]. by destruct ok. }
  split; [done|].
  split.
  { intros p Ht Hp. unfold symlink_command, literal_command.
    rewrite str_models_rel, str_models by done.
    by rewrite !PyStrFacts.app_assoc. }
  split; [|reflexivity].
  intros p Hp. unfold symlink_command, PosixPath.str, PosixPath.root, PosixPath.tail.
  by rewrite load_parts_models_abs.
Qed.

Lemma symlink_commands_in_order_witness :
  symlink_command (PosixPath.Path "/srv/invokeai") "uuid/model.safetensors"
  = literal_command "/srv/invokeai" "uuid/model.safetensors"
  /\ snd (action_generate_symlinks true (showing "/data" example_visible))
     = Some (literal_command "/data" "x/a.pt" +:+ newline
             +:+ literal_command "/data" "y/c.pt").
Proof.
  destruct (symlink_commands_in_order "/srv/invokeai" []) as (_ & _ & _ & _ & Hrel & _).
  destruct (symlink_commands_in_order "/data" example_visible) as (_ & _ & Hcopy & _).
  split.
  - apply Hrel; [discriminate | reflexivity].
  - rewrite (Hcopy true); [reflexivity | discriminate | discriminate].
Defined.

(** C5. The handler reports that there are no models exactly when no
    record is visible, and otherwise reports that no path is valid exactly
    when the path of every visible record is empty or white space only.
    The two reports differ, both are errors, and in these two cases, and
    only in them, nothing is handed to the clipboard. *)
Theorem symlink_generation_failures (clipboard_ok : bool) (s : viewer) :
  let s' := fst (action_generate_symlinks clipboard_ok s) in
  let copied := snd (action_generate_symlinks clipboard_ok s) in
  (status_text s' = msg_no_models <-> filtered_models s = [])
  /\ (status_text s' = msg_no_valid_paths
      <-> filtered_models s <> []
          /\ Forall (fun m => blank (path m)) (filtered_models s))
  /\ (copied = None
      <-> status_text s' = msg_no_models \/ status_text s' = msg_no_valid_paths)
  /\ msg_no_models <> msg_no_valid_paths.
Proof.
  cbv zeta. unfold action_generate_symlinks.
  destruct (filtered_models s) as [|m l] eqn:E.
  - cbn. rewrite Forall_nil. intuition congruence.
  - rewrite <- E.
    pose proof (symlinks_of_nil (data_path s) (filtered_models s)) as Hnil.
    destruct (symlinks_of (data_path s) (filtered_models s)) as [|c cs] eqn:Es.
    + cbn. rewrite E in *. intuition congruence.
    + assert (~ Forall (fun m => blank (path m)) (filtered_models s)) as Hn
        by (rewrite <- Hnil; congruence).
      rewrite E in *. destruct clipboard_ok; cbn; intuition congruence.
Qed.

(* ===================================================================== *)
(** * Properties of the record store adapter *)
(* ===================================================================== *)

Lemma rfind_Some s c i :
  PyStr.rfind s c = Some i ->
  exists pre post,
    s = pre +:+ String c post /\ String.length pre = i
    /\ PyStr.rfind post c = None /\ PyStr.drop i s = String c post.
Proof.
  revert i. induction s as [|a s IH]; intros i; simpl; [done|].
  destruct (PyStr.rfind s c) as [j|] eqn:E.
  - intros [= <-]. destruct (IH j eq_refl) as (pre & post & -> & Hl & Hp & Hd).
    exists (String a pre), post. simpl. by rewrite Hl.
  - destruct (ascii_dec a c) as [->|]; [|done].
    intros [= <-]. by exists "", s.
Qed.

Lemma length_app (a b : string) :
  String.length (a +:+ b) = (String.length a + String.length b)%nat.
Proof. induction a; simpl; congruence. Qed.

(** A suffix is empty, or it is the last dot of the final component and
    what follows it, where that dot is neither the first nor the last
    character of the component. *)
Lemma suffix_spec p :
  let e := PosixPath.suffix p in
  e = ""
  \/ exists stem rest,
       PosixPath.name p = stem +:+ "." +:+ rest
       /\ PyStr.truthy stem = true /\ PyStr.truthy rest = true
       /\ PyStr.rfind rest "." = None /\ e = "." +:+ rest.
Proof.
  cbv zeta. unfold PosixPath.suffix.
  destruct (PyStr.rfind (PosixPath.name p) ".") as [i|] eqn:E; [|by left].
  destruct (_ && _)%nat eqn:Hi; [|by left]. right.
  destruct (rfind_Some _ _ _ E) as (pre & post & Hn & Hl & Hp & Hd).
  apply andb_true_iff in Hi as [H0 H1].
  apply Nat.ltb_lt in H0, H1.
  rewrite Hn, length_app in H1. simpl in H1.
  exists pre, post. rewrite Hd. repeat split; try done.
  - destruct pre; [simpl in *; lia | done].
  - destruct post; [simpl in *; lia | done].
Qed.

Lemma str_items_strings l : str_items (map PyStr l) = Some l.
Proof. induction l as [|x l IH]; simpl; [done|]. by rewrite IH. Qed.

(** What the parsing of a trigger payload gives, and what the record
    keeps of it: the strings of a parsed list of strings, joined by a comma
    and a space; the string form of a parsed value that is not a list; and
    nothing for a payload that is absent, empty or not JSON. *)
Lemma trigger_phrases_parsed `{Builtins} (r : row) :
  (trigger_phrases_json r = None \/ trigger_phrases_json r = Some ""
   -> parse_triggers (trigger_phrases_json r) = []
      /\ exists m, load_row r = inr m /\ triggers m = "")
  /\ (forall p, trigger_phrases_json r = Some p -> json_loads p = None ->
        parse_triggers (trigger_phrases_json r) = []
        /\ exists m, load_row r = inr m /\ triggers m = "")
  /\ (forall p l, trigger_phrases_json r = Some p -> PyStr.truthy p = true ->
        json_loads p = Some (PyList (map PyStr l)) ->
        parse_triggers (trigger_phrases_json r) = map PyStr l
        /\ exists m, load_row r = inr m /\ triggers m = PyStr.join ", " l)
  /\ (forall p v, trigger_phrases_json r = Some p -> PyStr.truthy p = true ->
        json_loads p = Some v -> (forall l, v <> PyList l) ->
        parse_triggers (trigger_phrases_json r) = [PyStr (py_str v)]
        /\ exists m, load_row r = inr m /\ triggers m = py_str v).
Proof.
  split; [|split; [|split]].
  - intros [Hp|Hp]; unfold load_row; rewrite Hp; simpl; eauto.
  - intros p Hp Hj. unfold load_row. rewrite Hp. unfold parse_triggers.
    rewrite Hj. destruct (PyStr.truthy p); simpl; eauto.
  - intros p l Hp Ht Hj. unfold load_row. rewrite Hp. unfold parse_triggers.
    rewrite Ht, Hj. split; [done|].
    unfold join_items. rewrite str_items_strings.
    destruct l as [|x l]; simpl; eauto.
  - intros p v Hp Ht Hj Hv. unfold load_row. rewrite Hp. unfold parse_triggers.
    rewrite Ht, Hj.
    destruct v; try (by destruct (Hv items)); simpl; eauto.
Qed.

(** A database whose second row has the trigger payload [[1, 2]]. *)
Definition row_with_numbers : row :=
  mk_row (Some "bar") (Some "lora") (Some "sdxl") (Some "[1, 2]") (Some "u2/bar.pt").

Definition database_with_numbers : database :=
  Rows [ mk_row (Some "foo") (Some "lora") (Some "sdxl") None (Some "u1/foo.pt");
         row_with_numbers ].

(** C6. A trigger payload that parses to a list holding a value that is not
    a string makes the loading raise: [join] raises [TypeError] outside
    the [try] block, [load_models] passes it on, and [on_mount] reports a
    load error and shows no record at all. *)
Theorem trigger_list_of_numbers_raises `{Builtins} (dp : PosixPath.t) :
  json_loads "[1, 2]" = Some (PyList [PyInt 1; PyInt 2]) ->
  parse_triggers (trigger_phrases_json row_with_numbers) = [PyInt 1; PyInt 2]
  /\ load_row row_with_numbers = inl TypeError
  /\ load_models database_with_numbers = inl TypeError
  /\ (let s := on_mount database_with_numbers (init dp) in
      all_models s = [] /\ filtered_models s = []
      /\ status_text s = msg_load_error TypeError /\ status_error s = true).
Proof.
  intros Hj.
  assert (parse_triggers (trigger_phrases_json row_with_numbers) = [PyInt 1; PyInt 2])
    as Hp by (cbn; by rewrite Hj).
  assert (load_row row_with_numbers = inl TypeError) as Hr
    by (unfold load_row; by rewrite Hp).
  assert (load_models database_with_numbers = inl TypeError) as Hl
    by (cbn [load_models database_with_numbers load_rows]; by rewrite Hr).
  repeat split; try done; unfold on_mount; cbv zeta; by rewrite Hl.
Qed.

Lemma trigger_list_of_numbers_raises_witness :
  @load_models MiniJson.builtins database_with_numbers = inl TypeError.
Proof.
  apply (@trigger_list_of_numbers_raises MiniJson.builtins (PosixPath.Path "/data")).
  reflexivity.
Defined.

(** The payloads of the specification's examples, run with the
    executable instance. *)
Example trigger_examples :
  let payload l := mk_row (Some "foo") None None l None in
  @parse_triggers MiniJson.builtins
     (Some ("[" +:+ quoted "a" +:+ "," +:+ quoted "b" +:+ "]"))
  = [PyStr "a"; PyStr "b"]
  /\ @parse_triggers MiniJson.builtins (Some "not json") = []
  /\ @parse_triggers MiniJson.builtins None = []
  /\ @parse_triggers MiniJson.builtins (Some "12") = [PyStr "12"]
  /\ (exists m,
        @load_row MiniJson.builtins
           (payload (Some ("[" +:+ quoted "a" +:+ "," +:+ quoted "b" +:+ "]")))
        = inr m /\ triggers m = "a, b").
Proof. cbv zeta. repeat split. eexists. split; reflexivity. Qed.

(** The display name as the specification words it: the name field, or
    ["Unknown"] when the field is absent, and the extension. *)
Definition literal_display_name (r : row) : string :=
  (match model_name r with Some n => n | None => "Unknown" end)
  +:+ ext_of (model_path r).

(** C7, as stated, fails: a name field that is present and empty is
    replaced by ["Unknown"] as well. *)
Lemma display_name_of_empty_name :
  let r := mk_row (Some "") (Some "lora") (Some "sdxl") None (Some "u1/foo.pt") in
  display_name r = "Unknown.pt"
  /\ literal_display_name r = ".pt"
  /\ display_name r <> literal_display_name r.
Proof. cbv zeta. split; [reflexivity|]. split; [reflexivity|discriminate]. Qed.

(** C7, amended. The display name is the name field, or ["Unknown"] when
    that field is absent or empty, followed by the extension of the path
    field.  The extension is empty when the path is absent or empty;
    otherwise it is the suffix of the path: empty, or the last dot of the
    final component and what follows, that dot being neither the first nor
    the last character of the component.  The display name is never empty.
    The rows of the specification's example give ["foo.safetensors"] and
    ["bar"]. *)
Theorem display_name_derivation (r : row) :
  display_name r
  = (match model_name r with
     | Some (String c n) => String c n
     | _ => "Unknown"
     end)
    +:+ (match model_path r with
         | Some (String c p) => PosixPath.suffix (PosixPath.Path (String c p))
         | _ => ""
         end)
  /\ (forall p,
        let e := PosixPath.suffix (PosixPath.Path p) in
        e = ""
        \/ exists stem rest,
             PosixPath.name (PosixPath.Path p) = stem +:+ "." +:+ rest
             /\ PyStr.truthy stem = true /\ PyStr.truthy rest = true
             /\ PyStr.rfind rest "." = None /\ e = "." +:+ rest)
  /\ PyStr.truthy (display_name r) = true
  /\ display_name (mk_row (Some "foo") (Some "lora") (Some "sdxl") None
                     (Some "u1/foo.safetensors")) = "foo.safetensors"
  /\ display_name (mk_row (Some "bar") (Some "main") (Some "sd1") None None) = "bar".
Proof.
  split; [|split; [|split; [|split; reflexivity]]].
  - unfold display_name, ext_of, or_default.
    destruct (model_name r) as [[|c n]|]; destruct (model_path r) as [[|c' p]|]; done.
  - intros p. apply suffix_spec.
  - unfold display_name, or_default.
    destruct (model_name r) as [[|c n]|]; done.
Qed.

(* ===================================================================== *)
(** * Invariants and frame properties of the event handlers *)
(* ===================================================================== *)

Lemma handle_submseteq s e :
  filtered_models s ⊆+ all_models s ->
  filtered_models (handle s e) ⊆+ all_models (handle s e).
Proof.
  intros Hs. rewrite handle_all_models.
  destruct e as [i|id v| |ok]; simpl.
  - unfold on_data_table_header_selected.
    destruct (column_map i); [|done]. cbv zeta.
    match goal with |- context [apply_filters ?x] =>
      etrans; [apply (apply_filters_submseteq x)|]
    end.
    by destruct (column_eqb _ _).
  - rewrite on_input_changed_unfold.
    etrans; [apply apply_filters_submseteq|].
    by destruct (store_filter_frame id v s) as (-> & _).
  - unfold action_reset_filters. cbv zeta. simpl.
    match goal with |- context [apply_filters ?x] =>
      etrans; [apply (apply_filters_submseteq x)|]
    end.
    done.
  - by destruct (generate_symlinks_frame ok s) as (_ & -> & _).
Qed.

(** C8. In every state the application reaches, the visible records are a
    sub-multiset of the loaded records, and the loaded records are the ones
    the mount stored: no event changes [all_models]. *)
Theorem visible_submultiset_of_all `{Builtins} dp db events :
  let s := reached dp db events in
  filtered_models s ⊆+ all_models s
  /\ (forall m, m ∈ filtered_models s -> m ∈ all_models s)
  /\ all_models s = all_models (on_mount db (init dp))
  /\ (forall e, all_models (handle s e) = all_models s)
  /\ all_models (apply_filters s) = all_models s.
Proof.
  cbv zeta.
  assert (filtered_models (reached dp db events) ⊆+ all_models (reached dp db events)
          /\ all_models (reached dp db events) = all_models (on_mount db (init dp)))
    as [Hsub Hall].
  { unfold reached, run. induction events as [|e events IH] using rev_ind.
    - cbn [fold_left]. destruct (on_mount_fields db dp) as (_ & _ & _ & _ & _ & ->). done.
    - rewrite fold_left_app. cbn [fold_left]. destruct IH as [IH1 IH2]. split.
      + by apply handle_submseteq.
      + by rewrite handle_all_models. }
  repeat split; try done.
  - intros m Hm. by eapply elem_of_submseteq.
  - intros e. apply handle_all_models.
  - apply apply_filters_frame.
Qed.


Lemma action_reset_filters_fields s :
  let s' := action_reset_filters s in
  filter_name s' = "" /\ filter_type s' = "" /\ filter_subtype s' = ""
  /\ input_name s' = "" /\ input_type s' = "" /\ input_subtype s' = ""
  /\ sort_column s' = sort_column s /\ sort_reverse s' = sort_reverse s
  /\ all_models s' = all_models s /\ data_path s' = data_path s
  /\ table_columns s' = table_columns s
  /\ filtered_models s'
     = list_sort (sort_key (sort_column s)) (sort_reverse s) (all_models s)
  /\ table_rows s' = map (fun m => (name m, type m, subtype m)) (filtered_models s')
  /\ status_text s' = msg_filters_reset /\ status_error s' = false.
Proof.
  unfold action_reset_filters, apply_filters. cbv zeta.
  unfold update_status. by destruct (Nat.eqb _ _).
Qed.

Lemma viewer_eq (a b : viewer) :
  data_path a = data_path b -> all_models a = all_models b ->
  filtered_models a = filtered_models b ->
  sort_column a = sort_column b -> sort_reverse a = sort_reverse b ->
  filter_name a = filter_name b -> filter_type a = filter_type b ->
  filter_subtype a = filter_subtype b ->
  input_name a = input_name b -> input_type a = input_type b ->
  input_subtype a = input_subtype b ->
  table_columns a = table_columns b -> table_rows a = table_rows b ->
  status_text a = status_text b -> status_error a = status_error b ->
  a = b.
Proof. destruct a, b; simpl; intros; by subst. Qed.

(** C9. [action_reset_filters] empties the three filters and recomputes:
    every loaded record is visible, in the order of the unchanged sort
    column and direction.  Resetting twice gives the same state as
    resetting once. *)
Theorem reset_clears_filters_and_is_idempotent (s : viewer) :
  let s' := action_reset_filters s in
  (filter_name s' = "" /\ filter_type s' = "" /\ filter_subtype s' = "")
  /\ (sort_column s' = sort_column s /\ sort_reverse s' = sort_reverse s)
  /\ all_models s' = all_models s
  /\ filtered_models s' = filtered_models (apply_filters (set_filters "" "" "" s))
  /\ filtered_models s'
     = list_sort (sort_key (sort_column s)) (sort_reverse s) (all_models s)
  /\ action_reset_filters s' = s'.
Proof.
  intros s'.
  destruct (action_reset_filters_fields s)
    as (Hn & Ht & Hs & Hin & Hit & His & Hc & Hr & Ha & Hd & Htc & Hf & Htr & Hst & Hse).
  fold s' in Hn, Ht, Hs, Hin, Hit, His, Hc, Hr, Ha, Hd, Htc, Hf, Htr, Hst, Hse.
  split; [done|]. split; [done|]. split; [done|].
  split; [by rewrite Hf, apply_filters_filtered|]. split; [done|].
  destruct (action_reset_filters_fields s')
    as (Hn' & Ht' & Hs' & Hin' & Hit' & His' & Hc' & Hr' & Ha' & Hd' & Htc' & Hf'
        & Htr' & Hst' & Hse').
  assert (filtered_models (action_reset_filters s') = filtered_models s') as Hff.
  { by rewrite Hf', Hf, Hc, Hr, Ha. }
  apply viewer_eq; congruence.
Qed.

(** C10. A header event whose column index is not 0, 1 or 2 changes
    nothing: the sort state, the filters, the visible records, the table
    and the status bar stay as they are, and nothing is recomputed. *)
Theorem header_click_out_of_range_is_noop (s : viewer) (column_index : Z) :
  column_index < 0 \/ 2 < column_index ->
  on_data_table_header_selected column_index s = s.
Proof.
  intros Hi. apply column_map_None in Hi.
  unfold on_data_table_header_selected. by rewrite Hi.
Qed.

(** A mounted application whose records are not in sorted order yet: a
    recomputation would reorder the visible list, an out-of-range header
    event does not. *)
Definition unsorted_view : viewer :=
  showing "/data"
    [ mk_model "b.pt" "lora" "sdxl" "" "u1/b.pt";
      mk_model "a.pt" "main" "sd1" "" "u2/a.pt" ].

Lemma header_click_out_of_range_is_noop_witness :
  on_data_table_header_selected 3 unsorted_view = unsorted_view
  /\ on_data_table_header_selected (-1) unsorted_view = unsorted_view
  /\ filtered_models (apply_filters unsorted_view) <> filtered_models unsorted_view.
Proof.
  split; [|split].
  - apply header_click_out_of_range_is_noop. right. reflexivity.
  - apply header_click_out_of_range_is_noop. left. reflexivity.
  - discriminate.
Defined.

(* ===================================================================== *)
(** * How the handlers compose *)
(* ===================================================================== *)

(** What a recomputation reads: everything but the visible list, the table
    rows and the status bar, which it overwrites. *)
Definition engine_inputs (s : viewer) :=
  (data_path s, all_models s, sort_column s, sort_reverse s,
   filter_name s, filter_type s, filter_subtype s,
   input_name s, input_type s, input_subtype s, table_columns s).

Lemma apply_filters_ext a b :
  engine_inputs a = engine_inputs b -> apply_filters a = apply_filters b.
Proof.
  destruct a, b. unfold engine_inputs. cbn. intros [= -> -> -> -> -> -> -> -> -> -> ->].
  reflexivity.
Qed.

Lemma engine_inputs_apply_filters s :
  engine_inputs (apply_filters s) = engine_inputs s.
Proof.
  unfold engine_inputs.
  by destruct (apply_filters_frame s) as (-> & -> & -> & -> & -> & -> & -> & -> & -> & -> & ->).
Qed.

Lemma store_filter_ext input_id value a b :
  engine_inputs a = engine_inputs b ->
  engine_inputs (store_filter input_id value a)
  = engine_inputs (store_filter input_id value b).
Proof.
  destruct a, b. unfold engine_inputs, store_filter. cbn.
  intros [= -> -> -> -> -> -> -> -> -> -> ->].
  by repeat destruct (String.eqb _ _).
Qed.

(** The state a valid header click recomputes from. *)
Definition header_prep (column_index : Z) (c : column) (s : viewer) : viewer :=
  let s := toggled c s in
  let headers := [("Model", None); ("Type", None); ("Base Model", None)] in
  let sort_indicator := if negb (sort_reverse s) then arrow_down else arrow_up in
  let headers :=
    alter (fun h => (fst h, Some sort_indicator)) (Z.to_nat column_index) headers in
  set_table (zip_with (fun h w => mk_header (fst h) (snd h) w)
               headers [120; 24; 16]%nat) [] s.

Lemma header_selected_unfold column_index s :
  on_data_table_header_selected column_index s
  = match column_map column_index with
    | Some c => apply_filters (header_prep column_index c s)
    | None => s
    end.
Proof. reflexivity. Qed.

Lemma header_prep_ext i c a b :
  engine_inputs a = engine_inputs b ->
  engine_inputs (header_prep i c a) = engine_inputs (header_prep i c b).
Proof.
  destruct a, b. unfold engine_inputs, header_prep, toggled. cbn.
  intros [= -> -> -> -> -> -> -> -> -> -> ->].
  by destruct (column_eqb _ _).
Qed.

(** X1. Recomputing twice is recomputing once, and of two successive
    edits of the same filter box only the last one counts. *)
Theorem recompute_idempotent_last_edit_wins (s : viewer) (input_id v v' : string) :
  apply_filters (apply_filters s) = apply_filters s
  /\ on_input_changed input_id v (on_input_changed input_id v' s)
     = on_input_changed input_id v s.
Proof.
  split.
  - apply apply_filters_ext, engine_inputs_apply_filters.
  - rewrite !on_input_changed_unfold. apply apply_filters_ext.
    etrans; [apply store_filter_ext, engine_inputs_apply_filters|].
    destruct s. unfold engine_inputs, store_filter. cbn.
    by repeat destruct (String.eqb _ _).
Qed.

(** X2. Edits of two different filter boxes commute: the state after both
    does not depend on their order. *)
Theorem filter_edits_commute (s : viewer) (id1 v1 id2 v2 : string) :
  id1 <> id2 ->
  on_input_changed id1 v1 (on_input_changed id2 v2 s)
  = on_input_changed id2 v2 (on_input_changed id1 v1 s).
Proof.
  intros Hne. rewrite !on_input_changed_unfold. apply apply_filters_ext.
  etrans; [apply store_filter_ext, engine_inputs_apply_filters|].
  etrans; [|symmetry; apply store_filter_ext, engine_inputs_apply_filters].
  destruct s. unfold engine_inputs, store_filter. cbn.
  repeat match goal with
         | |- context [String.eqb ?a ?b] =>
             destruct (String.eqb_spec a b); subst; try discriminate
         end;
    first [by destruct Hne | reflexivity].
Qed.

Lemma filter_edits_commute_witness :
  on_input_changed "input_name" "Foo" (on_input_changed "input_type" "LoRA" unsorted_view)
  = on_input_changed "input_type" "LoRA" (on_input_changed "input_name" "Foo" unsorted_view).
Proof. apply filter_edits_commute. discriminate. Defined.

(** X3. A header click and a filter edit commute, for every column index
    and every input id. *)
Theorem header_click_commutes_with_filter_edit
    (s : viewer) (column_index : Z) (input_id v : string) :
  on_data_table_header_selected column_index (on_input_changed input_id v s)
  = on_input_changed input_id v (on_data_table_header_selected column_index s).
Proof.
  rewrite !header_selected_unfold.
  destruct (column_map column_index) as [c|]; [|done].
  rewrite !on_input_changed_unfold. apply apply_filters_ext.
  etrans; [apply header_prep_ext, engine_inputs_apply_filters|].
  etrans; [|symmetry; apply store_filter_ext, engine_inputs_apply_filters].
  destruct s. unfold engine_inputs, store_filter, header_prep, toggled. cbn.
  repeat destruct (String.eqb _ _); by destruct (column_eqb _ _).
Qed.

(** X4. After a first click on a column header, two more clicks on the same
    header bring back the state the first click left: sort state, header
    marks, visible list, table and status bar. *)
Theorem three_header_clicks_are_one (s : viewer) (column_index : Z) :
  let click := on_data_table_header_selected column_index in
  click (click (click s)) = click s.
Proof.
  cbv zeta. rewrite !header_selected_unfold.
  destruct (column_map column_index) as [c|] eqn:E; [|done].
  apply apply_filters_ext.
  etrans; [apply header_prep_ext, engine_inputs_apply_filters|].
  etrans; [apply header_prep_ext, header_prep_ext, engine_inputs_apply_filters|].
  destruct s. unfold engine_inputs, header_prep, toggled. cbn.
  by destruct sort_column0, c, sort_reverse0.
Qed.

(** X5. A reset discards what was typed: resetting after a filter edit
    gives the state a reset alone gives. *)
Theorem reset_discards_filter_edit (s : viewer) (input_id v : string) :
  action_reset_filters (on_input_changed input_id v s) = action_reset_filters s.
Proof.
  unfold action_reset_filters. cbv zeta. f_equal.
  rewrite on_input_changed_unfold. apply apply_filters_ext.
  pose proof (engine_inputs_apply_filters (store_filter input_id v s)) as Hi.
  destruct (apply_filters (store_filter input_id v s)).
  destruct s. unfold engine_inputs, store_filter in *. cbn in *.
  repeat destruct (String.eqb _ _); cbn in Hi; by injection Hi as -> -> -> -> -> -> -> -> -> -> ->.
Qed.

(* ===================================================================== *)
(** * More about recomputation *)
(* ===================================================================== *)

Section FilterFacts.
Context {A : Type}.

Lemma filter_filter_and (f g : A -> bool) l :
  List.filter f (List.filter g l) = List.filter (fun x => g x && f x) l.
Proof.
  induction l as [|x l IH]; simpl; [done|].
  destruct (g x); simpl; [|done]. destruct (f x); by rewrite IH.
Qed.

Lemma filter_filter_comm (f g : A -> bool) l :
  List.filter f (List.filter g l) = List.filter g (List.filter f l).
Proof.
  rewrite !filter_filter_and. apply List.filter_ext. intros x. apply andb_comm.
Qed.

Lemma filter_sublist (f : A -> bool) l : List.filter f l `sublist_of` l.
Proof. induction l as [|x l IH]; simpl; [done|]. destruct (f x); by constructor. Qed.

Lemma filter_sublist_impl (f g : A -> bool) l :
  (forall x, f x = true -> g x = true) ->
  List.filter f l `sublist_of` List.filter g l.
Proof.
  intros Hfg. induction l as [|x l IH]; simpl; [done|].
  destruct (f x) eqn:Hf.
  - rewrite (Hfg x Hf). by constructor.
  - destruct (g x); [by constructor|done].
Qed.

Lemma filter_length_all (f : A -> bool) l :
  length (List.filter f l) = length l <-> Forall (fun x => f x = true) l.
Proof.
  induction l as [|x l IH]; simpl; [by split; [constructor|]|].
  pose proof (sublist_length _ _ (filter_sublist f l)) as Hle.
  destruct (f x) eqn:Hf; simpl.
  - rewrite Forall_cons. split.
    + intros [= Hl]. split; [done|by apply IH].
    + intros [_ Hl]. f_equal. by apply IH.
  - split; [lia|]. intros [Hx _]%Forall_cons. congruence.
Qed.

Lemma StronglySorted_sublist_of (R : relation A) l k :
  k `sublist_of` l -> StronglySorted R l -> StronglySorted R k.
Proof.
  intros Hsub Hs. revert k Hsub. induction Hs as [|x l Hs IH Hx]; intros k Hsub.
  - apply sublist_nil_r in Hsub as ->. constructor.
  - apply sublist_cons_r in Hsub as [Hsub|(k' & -> & Hsub)]; [by apply IH|].
    constructor; [by apply IH|].
    rewrite Forall_forall in *. intros y Hy. apply Hx. by eapply elem_of_sublist.
Qed.

(** A stable sort commutes with taking the elements that pass a test. *)
Lemma list_sort_filter (key : A -> string) reverse (f : A -> bool) l :
  list_sort key reverse (List.filter f l) = List.filter f (list_sort key reverse l).
Proof.
  symmetry. apply list_sort_unique.
  - eapply StronglySorted_sublist_of; [apply filter_sublist|apply list_sort_sorted].
  - intros k. unfold with_key.
    rewrite filter_filter_comm. fold (with_key key k (list_sort key reverse l)).
    rewrite list_sort_stable. unfold with_key. apply filter_filter_comm.
Qed.

(** Elements that all have the same key are left as they are, in either
    direction. *)
Lemma list_sort_same_key (key : A -> string) reverse k l :
  Forall (fun x => key x = k) l -> list_sort key reverse l = l.
Proof.
  intros Hk. symmetry. apply list_sort_unique; [|done].
  induction Hk as [|x l Hx Hl IH]; constructor; [done|].
  eapply Forall_impl; [exact Hl|]. intros y Hy.
  unfold in_order. destruct reverse; unfold key_ge, key_le; rewrite Hx, Hy;
    apply PyStrFacts.not_lt_leb, PyStrFacts.ltb_irrefl.
Qed.

End FilterFacts.

(** The three filters as one test. *)
Definition passesb (fname ftype fsubtype : string) (m : model) : bool :=
  PyStr.contains fname (PyStr.lower (name m))
  && PyStr.contains ftype (PyStr.lower (type m))
  && PyStr.contains fsubtype (PyStr.lower (subtype m)).

Lemma passesb_passes fname ftype fsubtype m :
  passesb fname ftype fsubtype m = true <-> passes fname ftype fsubtype m.
Proof. unfold passesb, passes. rewrite !andb_true_iff. tauto. Qed.

Lemma filter_step_filter pattern c l :
  filter_step pattern c l
  = List.filter (fun m => PyStr.contains pattern (PyStr.lower (getitem m c))) l.
Proof.
  unfold filter_step. destruct pattern as [|a p]; [|done]. cbn [PyStr.truthy].
  symmetry. rewrite <- (List.filter_true l) at 2. apply List.filter_ext.
  intros m. apply PyStrFacts.contains_empty.
Qed.

Lemma matching_filter s :
  matching s
  = List.filter (passesb (filter_name s) (filter_type s) (filter_subtype s))
      (all_models s).
Proof.
  unfold matching. rewrite !filter_step_filter, !filter_filter_and.
  apply List.filter_ext. intros m. unfold passesb. cbn [getitem].
  by rewrite andb_assoc.
Qed.

Lemma apply_filters_filter_sorted s :
  filtered_models (apply_filters s)
  = List.filter (passesb (filter_name s) (filter_type s) (filter_subtype s))
      (list_sort (sort_key (sort_column s)) (sort_reverse s) (all_models s)).
Proof. by rewrite apply_filters_filtered, matching_filter, list_sort_filter. Qed.

(** X6. Sorting and filtering commute: the visible list is the fully
    sorted list of all records with the records that fail a filter taken
    out, so the records that stay visible keep the relative order they
    have in the unfiltered view. *)
Theorem visible_is_filtered_sorted_view (s : viewer) :
  let sorted := list_sort (sort_key (sort_column s)) (sort_reverse s) (all_models s) in
  filtered_models (apply_filters s)
  = List.filter (passesb (filter_name s) (filter_type s) (filter_subtype s)) sorted
  /\ filtered_models (apply_filters s) `sublist_of` sorted
  /\ sorted = filtered_models (apply_filters (set_filters "" "" "" s)).
Proof.
  cbv zeta.
  pose proof (apply_filters_filter_sorted s) as Heq.
  split; [done|]. split; [rewrite Heq; apply filter_sublist|].
  by rewrite apply_filters_filtered.
Qed.

Lemma contains_trans a b c :
  PyStr.contains a b = true -> PyStr.contains b c = true -> PyStr.contains a c = true.
Proof.
  rewrite !PyStrFacts.contains_spec. intros (p1 & q1 & ->) (p2 & q2 & ->).
  exists (p2 +:+ p1), (q1 +:+ q2). by rewrite !PyStrFacts.app_assoc.
Qed.

Lemma on_input_changed_filtered input_id v s :
  let s1 := store_filter input_id v s in
  filtered_models (on_input_changed input_id v s)
  = List.filter (passesb (filter_name s1) (filter_type s1) (filter_subtype s1))
      (list_sort (sort_key (sort_column s)) (sort_reverse s) (all_models s)).
Proof.
  cbv zeta. rewrite on_input_changed_unfold.
  rewrite apply_filters_filter_sorted.
  by destruct (store_filter_frame input_id v s) as (-> & -> & ->).
Qed.

(** X7. A stricter filter text narrows the view: when the lower-cased
    text of an edit contains the lower-cased text of another edit of the
    same box, as it does when characters are added to a text, its visible
    list is a sublist of the visible list of the other (no record appears,
    none changes place). *)
Theorem stricter_filter_text_narrows (s : viewer) (input_id v v' : string) :
  PyStr.contains (PyStr.lower v) (PyStr.lower v') = true ->
  filtered_models (on_input_changed input_id v' s)
  `sublist_of` filtered_models (on_input_changed input_id v s).
Proof.
  intros Hv. rewrite !on_input_changed_filtered.
  apply filter_sublist_impl. intros m.
  rewrite !passesb_passes. unfold passes, store_filter.
  repeat destruct (String.eqb _ _); cbn; intros (H1 & H2 & H3);
    eauto using contains_trans.
Qed.

Lemma stricter_filter_text_narrows_witness :
  filtered_models (on_input_changed "input_name" "a.P" unsorted_view)
  `sublist_of` filtered_models (on_input_changed "input_name" "A" unsorted_view).
Proof. apply stricter_filter_text_narrows. reflexivity. Defined.

(** X8. After a recomputation the status bar is not an error; it reads
    "Showing all n models" exactly when every record passes the filters,
    and otherwise "Showing k of n models" with k the number of visible
    records, which is then below n. *)
Theorem status_counts_after_recompute (s : viewer) :
  let s' := apply_filters s in
  let n := length (all_models s) in
  let k := length (filtered_models s') in
  status_error s' = false
  /\ (k <= n)%nat
  /\ (status_text s' = msg_showing_all n
      <-> Forall (passes (filter_name s) (filter_type s) (filter_subtype s))
            (all_models s))
  /\ (status_text s' = msg_showing k n <-> (k < n)%nat).
Proof.
  cbv zeta.
  assert (length (filtered_models (apply_filters s)) = length (matching s)) as Hlen.
  { rewrite apply_filters_filtered. apply Permutation_length, list_sort_perm. }
  pose proof (sublist_length _ _ (matching_sublist s)) as Hle.
  assert (length (matching s) = length (all_models s)
          <-> Forall (passes (filter_name s) (filter_type s) (filter_subtype s))
                (all_models s)) as Hall.
  { rewrite matching_filter, filter_length_all.
    apply Forall_iff. intros m. apply passesb_passes. }
  rewrite Hlen. rewrite <- Hall. clear Hall.
  unfold apply_filters. cbv zeta. fold (matching s).
  unfold update_status, update_status_text.
  cbn [all_models filtered_models set_status set_table update_table set_models
       status_text status_error].
  rewrite (Permutation_length (list_sort_perm _ _ (matching s))).
  destruct (Nat.eqb_spec (length (matching s)) (length (all_models s))) as [He|Hne];
    cbn [status_text status_error].
  - rewrite He. repeat split; try done; try lia.
  - repeat split; try done; try lia; intros [=]; lia.
Qed.

(** X9. When the matching records all have the same lower-cased value in
    the sort column, recomputation shows them in the order of the loaded
    list, whether the sort is reversed or not: a descending sort does not
    turn ties around. *)
Theorem equal_sort_keys_keep_loaded_order (s : viewer) (k : string) :
  Forall (fun m => sort_key (sort_column s) m = k) (matching s) ->
  filtered_models (apply_filters s) = matching s.
Proof. intros Hk. rewrite apply_filters_filtered. by eapply list_sort_same_key. Qed.

(** Two records whose types differ in case only, sorted by type in
    reverse. *)
Definition tied_view : viewer :=
  set_sort col_type true
    (showing "/data"
       [ mk_model "b.pt" "LoRA" "sdxl" "" "u1/b.pt";
         mk_model "a.pt" "lora" "sd1" "" "u2/a.pt" ]).

Lemma equal_sort_keys_keep_loaded_order_witness :
  filtered_models (apply_filters tied_view) = matching tied_view.
Proof.
  apply (equal_sort_keys_keep_loaded_order tied_view "lora").
  repeat constructor.
Defined.

(* ===================================================================== *)
(** * What the display shows *)
(* ===================================================================== *)

(** The rows [update_table] adds for a list of records. *)
Definition table_of (l : list model) : list (string * string * string) :=
  map (fun m => (name m, type m, subtype m)) l.

(** The three columns with the mark on column [c]: the down arrow when the
    sort is not reversed, the up arrow when it is. *)
Definition marked_columns (c : column) (reverse : bool) : list header :=
  let mark c' :=
    if column_eqb c c' then Some (if reverse then arrow_up else arrow_down) else None in
  [ mk_header "Model" (mark col_name) 120;
    mk_header "Type" (mark col_type) 24;
    mk_header "Base Model" (mark col_subtype) 16 ].

(** The display agrees with the engine. *)
Definition display_ok (s : viewer) : Prop :=
  table_rows s = table_of (filtered_models s)
  /\ table_columns s = marked_columns (sort_column s) (sort_reverse s).

Lemma apply_filters_table s :
  table_rows (apply_filters s) = table_of (filtered_models (apply_filters s)).
Proof.
  unfold apply_filters, update_status. cbv zeta. by destruct (Nat.eqb _ _).
Qed.

Lemma column_map_Some i c : column_map i = Some c -> i = index_of c.
Proof.
  destruct i as [|p|p]; simpl; [by intros [= <-]| |done].
  destruct p as [[]|[]|]; simpl; try done; by intros [= <-].
Qed.

Lemma header_prep_columns c s :
  table_columns (header_prep (index_of c) c s)
  = marked_columns (sort_column (header_prep (index_of c) c s))
      (sort_reverse (header_prep (index_of c) c s)).
Proof.
  destruct s. unfold header_prep, toggled. cbn.
  by destruct sort_column0, c, sort_reverse0.
Qed.

Lemma on_mount_display_ok `{Builtins} db dp : display_ok (on_mount db (init dp)).
Proof.
  unfold display_ok, on_mount. cbv zeta.
  destruct (load_models db) as [e|models]; [done|].
  unfold update_status. by destruct (Nat.eqb _ _).
Qed.

Lemma handle_display_ok s e : display_ok s -> display_ok (handle s e).
Proof.
  intros [Hr Hc]. destruct e as [i|id v| |ok]; simpl.
  - rewrite header_selected_unfold.
    destruct (column_map i) as [c|] eqn:E; [|done].
    apply column_map_Some in E as ->.
    split; [apply apply_filters_table|].
    destruct (apply_filters_frame (header_prep (index_of c) c s))
      as (_ & _ & -> & -> & _ & _ & _ & _ & _ & _ & ->).
    apply header_prep_columns.
  - rewrite on_input_changed_unfold. split; [apply apply_filters_table|].
    destruct (apply_filters_frame (store_filter id v s))
      as (_ & _ & -> & -> & _ & _ & _ & _ & _ & _ & ->).
    unfold store_filter. by repeat destruct (String.eqb _ _).
  - unfold action_reset_filters, display_ok. cbv zeta.
    cbn [update_status_text set_status table_rows table_columns filtered_models
         sort_column sort_reverse].
    split; [apply apply_filters_table|].
    match goal with |- context [apply_filters ?x] =>
      by destruct (apply_filters_frame x)
        as (_ & _ & -> & -> & _ & _ & _ & _ & _ & _ & ->)
    end.
  - unfold action_generate_symlinks.
    destruct (filtered_models s) eqn:Ef.
    { split; cbn; [by rewrite Hr, Ef|done]. }
    destruct (symlinks_of _ _); [|destruct ok]; split; cbn; by rewrite ?Hr, ?Ef.
Qed.

Lemma reached_display_ok `{Builtins} dp db events : display_ok (reached dp db events).
Proof.
  unfold reached, run. induction events as [|e events IH] using rev_ind.
  - apply on_mount_display_ok.
  - rewrite fold_left_app. by apply handle_display_ok.
Qed.

(** X10. In every state the application reaches, the rows of the table are
    the visible records, in the same order: name, type and subtype of
    each. *)
Theorem table_always_shows_visible_records `{Builtins} dp db events :
  let s := reached dp db events in
  table_rows s = map (fun m => (name m, type m, subtype m)) (filtered_models s)
  /\ length (table_rows s) = length (filtered_models s).
Proof.
  cbv zeta. destruct (reached_display_ok dp db events) as [Hr _].
  rewrite Hr. split; [done|]. apply length_map.
Qed.

(** X11. In every state the application reaches the table has the three
    columns Model, Type and Base Model, of widths 120, 24 and 16; exactly
    the sort column carries a mark, and the mark is the down arrow while
    [sort_reverse] is [False] (the ascending sort) and the up arrow while
    it is [True]. *)
Theorem header_mark_follows_sort_state `{Builtins} dp db events :
  let s := reached dp db events in
  map label (table_columns s) = ["Model"; "Type"; "Base Model"]
  /\ map width (table_columns s) = [120; 24; 16]%nat
  /\ map mark (table_columns s)
     = map (fun c => if column_eqb (sort_column s) c
                     then Some (if sort_reverse s then arrow_up else arrow_down)
                     else None)
         [col_name; col_type; col_subtype].
Proof.
  cbv zeta. destruct (reached_display_ok dp db events) as [_ ->]. done.
Qed.

Lemma reached_submseteq `{Builtins} dp db events :
  filtered_models (reached dp db events) ⊆+ all_models (reached dp db events)
  /\ all_models (reached dp db events) = all_models (on_mount db (init dp)).
Proof.
  unfold reached, run. induction events as [|e events IH] using rev_ind.
  - cbn [fold_left]. destruct (on_mount_fields db dp) as (_ & _ & _ & _ & _ & ->). done.
  - rewrite fold_left_app. cbn [fold_left]. destruct IH as [IH1 IH2]. split.
    + by apply handle_submseteq.
    + by rewrite handle_all_models.
Qed.

Lemma apply_filters_no_models s :
  all_models s = [] ->
  status_text (apply_filters s) = msg_showing_all 0
  /\ status_error (apply_filters s) = false.
Proof.
  intros Ha. unfold apply_filters. cbv zeta. rewrite Ha.
  assert (forall p c, filter_step p c [] = []) as Hf
    by (intros p c; unfold filter_step; by destruct (PyStr.truthy p)).
  rewrite !Hf. by destruct (sort_reverse s).
Qed.

(** X12. When the load fails, the mount reports the error and shows no
    record; no later event brings a record in, and the first filter edit
    replaces the error in the status bar by "Showing all 0 models". *)
Theorem failed_load_leaves_empty_view `{Builtins} dp db e events :
  load_models db = inl e ->
  let s0 := on_mount db (init dp) in
  let s := reached dp db events in
  (status_text s0 = msg_load_error e /\ status_error s0 = true)
  /\ (all_models s = [] /\ filtered_models s = [] /\ table_rows s = [])
  /\ (forall input_id v,
        status_text (on_input_changed input_id v s) = msg_showing_all 0
        /\ status_error (on_input_changed input_id v s) = false).
Proof.
  intros Hl. cbv zeta.
  assert (all_models (on_mount db (init dp)) = []) as H0
    by (unfold on_mount; cbv zeta; by rewrite Hl).
  split; [unfold on_mount; cbv zeta; by rewrite Hl|].
  destruct (reached_submseteq dp db events) as [Hsub Hall].
  rewrite H0 in Hall.
  assert (filtered_models (reached dp db events) = []) as Hf.
  { rewrite Hall in Hsub. by apply submseteq_nil_r in Hsub. }
  split.
  { split; [done|]. split; [done|].
    destruct (reached_display_ok dp db events) as [-> _]. by rewrite Hf. }
  intros input_id v. rewrite on_input_changed_unfold.
  set (s1 := store_filter input_id v (reached dp db events)).
  assert (all_models s1 = []) as H1.
  { unfold s1. by destruct (store_filter_frame input_id v (reached dp db events)) as (-> & _). }
  by apply apply_filters_no_models.
Qed.

Lemma failed_load_leaves_empty_view_witness :
  filtered_models
    (@reached MiniJson.builtins (PosixPath.Path "/data") Missing
       [InputChanged "input_name" "foo"; ResetFilters; HeaderSelected 1]) = [].
Proof.
  apply (@failed_load_leaves_empty_view MiniJson.builtins (PosixPath.Path "/data")
           Missing FileNotFoundError).
  reflexivity.
Defined.

(* ===================================================================== *)
(** * More about the symlink action *)
(* ===================================================================== *)

(** X13. The symlink action changes the status bar only: filters, sort
    state, visible records and table stay as they are.  It reports
    "Copied n" exactly when the clipboard call returns and n, the number of
    visible records with a usable path, is positive; that report is the
    only one which is not an error, and n never exceeds the number of
    visible records. *)
Theorem symlink_action_only_reports (clipboard_ok : bool) (s : viewer) :
  let s' := fst (action_generate_symlinks clipboard_ok s) in
  let n := length (List.filter (fun m => usable_path (path m)) (filtered_models s)) in
  s' = set_status (status_text s') (status_error s') s
  /\ (n <= length (filtered_models s))%nat
  /\ (status_text s' = msg_copied n <-> clipboard_ok = true /\ (0 < n)%nat)
  /\ (status_text s' = msg_copy_failed <-> clipboard_ok = false /\ (0 < n)%nat)
  /\ (status_error s' = false <-> status_text s' = msg_copied n).
Proof.
  cbv zeta.
  pose proof (sublist_length _ _
    (filter_sublist (fun m => usable_path (path m)) (filtered_models s))) as Hle.
  unfold action_generate_symlinks.
  rewrite (symlinks_of_map (data_path s) (filtered_models s)).
  destruct (filtered_models s) as [|m l] eqn:Ef.
  { cbn. repeat split; try done; try lia; intros; try lia; intuition (try lia; try done). }
  destruct (List.filter (fun m => usable_path (path m)) (m :: l)) as [|x xs] eqn:Eu.
  { cbn. repeat split; try done; try lia; intuition (try lia; try done). }
  rewrite length_map. cbn [map length].
  destruct clipboard_ok; cbn; repeat split; try done; try lia;
    intuition (try lia; try done).
Qed.

(* ===================================================================== *)
(** * More about the record store adapter *)
(* ===================================================================== *)

(** The record of a row whose trigger text is [t]. *)
Definition normalised (r : row) (t : string) : model :=
  {| name := display_name r;
     type := or_default (model_type r) "Unknown";
     subtype := or_default (model_base r) "Unknown";
     triggers := t;
     path := or_default (model_path r) "" |}.

(** A row [join] raises on: its parsed triggers hold a value that is not a
    string. *)
Definition bad_triggers `{Builtins} (r : row) : Prop :=
  str_items (parse_triggers (trigger_phrases_json r)) = None.

Lemma load_row_cases `{Builtins} r :
  (bad_triggers r /\ load_row r = inl TypeError)
  \/ (exists t, ~ bad_triggers r /\ load_row r = inr (normalised r t)).
Proof.
  unfold bad_triggers, load_row, join_items, normalised.
  destruct (parse_triggers (trigger_phrases_json r)) as [|v l] eqn:E.
  - right. by exists "".
  - destruct (str_items (v :: l)) as [strs|]; [right|by left].
    by exists (PyStr.join ", " strs).
Qed.

Lemma load_rows_spec `{Builtins} rows :
  (Exists bad_triggers rows /\ load_rows rows = inl TypeError)
  \/ (exists ms, Forall (fun r => ~ bad_triggers r) rows
                 /\ load_rows rows = inr ms
                 /\ Forall2 (fun r m => exists t, m = normalised r t) rows ms).
Proof.
  induction rows as [|r rows IH]; simpl.
  - right. exists []. by repeat constructor.
  - destruct (load_row_cases r) as [[Hb ->]|(t & Hb & ->)].
    + left. split; [by left|done].
    + destruct IH as [[Hex ->]|(ms & Hall & -> & H2)].
      * left. split; [by right|done].
      * right. exists (normalised r t :: ms). repeat split; try done.
        -- by constructor.
        -- constructor; [by exists t|done].
Qed.

(** A value that is not a string. *)
Definition is_text (v : pyobj) : bool :=
  match v with PyStr _ => true | _ => false end.

(** The trigger column of the row is a non-empty text that [json.loads]
    parses to a list in which some value is not a string. *)
Definition has_non_string_trigger `{Builtins} (r : row) : Prop :=
  exists p items v,
    trigger_phrases_json r = Some p /\ p <> "" /\ json_loads p = Some (PyList items)
    /\ v ∈ items /\ is_text v = false.

(** The trigger text of a row whose trigger column is absent, empty, a
    text that [json.loads] parses to a list of strings, or a text that it
    parses to a value that is not a list. *)
Inductive trigger_text `{Builtins} (r : row) : string -> Prop :=
  | triggers_absent :
      trigger_phrases_json r = None -> trigger_text r ""
  | triggers_empty :
      trigger_phrases_json r = Some "" -> trigger_text r ""
  | triggers_strings p l :
      trigger_phrases_json r = Some p -> p <> "" ->
      json_loads p = Some (PyList (map PyStr l)) ->
      trigger_text r (PyStr.join ", " l)
  | triggers_value p v :
      trigger_phrases_json r = Some p -> p <> "" ->
      json_loads p = Some v -> (forall items, v <> PyList items) ->
      trigger_text r (py_str v).

Lemma truthy_nonempty p : p <> "" -> PyStr.truthy p = true.
Proof. by destruct p. Qed.

Lemma load_row_trigger_text `{Builtins} r t :
  trigger_text r t -> load_row r = inr (normalised r t).
Proof.
  intros Ht. unfold load_row, parse_triggers, normalised.
  destruct Ht as [Hp|Hp|p l Hp Hne Hj|p v Hp Hne Hj Hv]; rewrite Hp.
  - done.
  - done.
  - rewrite (truthy_nonempty p Hne), Hj.
    destruct l as [|x l]; [done|]. unfold join_items.
    by rewrite (str_items_strings (x :: l)).
  - rewrite (truthy_nonempty p Hne), Hj.
    destruct v; try done. by destruct (Hv items).
Qed.

Lemma str_items_non_text items v :
  v ∈ items -> is_text v = false -> str_items items = None.
Proof.
  intros Hin Hv. induction Hin as [v items|v w items Hin IH]; simpl.
  - by destruct v.
  - rewrite (IH Hv). by destruct w.
Qed.

Lemma load_row_non_string `{Builtins} r :
  has_non_string_trigger r -> load_row r = inl TypeError.
Proof.
  intros (p & items & v & Hp & Hne & Hj & Hin & Hv).
  unfold load_row, parse_triggers. rewrite Hp, (truthy_nonempty p Hne), Hj.
  destruct items as [|w items]; [by apply elem_of_nil in Hin|].
  unfold join_items. by rewrite (str_items_non_text _ v Hin Hv).
Qed.

Lemma load_rows_inr `{Builtins} rows ms :
  load_rows rows = inr ms -> Forall2 (fun r m => load_row r = inr m) rows ms.
Proof.
  revert ms. induction rows as [|r rows IH]; intros ms; simpl.
  - intros [= <-]. constructor.
  - destruct (load_row r) as [e|m] eqn:Er; [done|].
    destruct (load_rows rows) as [e|ms'] eqn:El; [done|].
    intros [= <-]. constructor; [done|by apply IH].
Qed.

(** X14. [load_models] works row by row.  When it returns, it returns
    one record per row, in the order of the rows, each with the display
    name, type, subtype and path of its row.  It returns nothing as soon
    as one row has a trigger text that parses to a list holding a value that
    is not a string.  It does return when the trigger column of every row is
    absent, empty, a list of strings or a value that is not a list, and
    the trigger text of each record is then the empty string, the strings
    joined by a comma and a space, or the string form of the value. *)
Theorem load_models_row_by_row `{Builtins} (rows : list row) :
  (forall ms, load_models (Rows rows) = inr ms ->
     length ms = length rows
     /\ Forall2 (fun r m =>
          name m = display_name r
          /\ type m = or_default (model_type r) "Unknown"
          /\ subtype m = or_default (model_base r) "Unknown"
          /\ path m = or_default (model_path r) "") rows ms)
  /\ (Exists has_non_string_trigger rows ->
      forall ms, load_models (Rows rows) <> inr ms)
  /\ (forall ts, Forall2 trigger_text rows ts ->
        exists ms, load_models (Rows rows) = inr ms /\ map triggers ms = ts).
Proof.
  cbn [load_models]. split; [|split].
  - intros ms Hl. apply load_rows_inr in Hl.
    split; [symmetry; by eapply Forall2_length|].
    eapply Forall2_impl; [exact Hl|]. intros r m Hm. cbv beta in Hm.
    destruct (load_row_cases r) as [[_ Hr]|(t & _ & Hr)]; rewrite Hr in Hm; [done|].
    by injection Hm as <-.
  - intros Hex ms Hl. apply load_rows_inr in Hl.
    apply Exists_exists in Hex as (r & Hr & Hbad).
    apply list_elem_of_lookup in Hr as [i Hi].
    destruct (Forall2_lookup_l _ _ _ _ _ Hl Hi) as (m & _ & Hm).
    cbv beta in Hm. rewrite (load_row_non_string r Hbad) in Hm. done.
  - intros ts Hts. induction Hts as [|r t rows ts Ht Hts IH]; cbn [load_rows].
    + by exists [].
    + rewrite (load_row_trigger_text r t Ht).
      destruct IH as (ms & -> & Hms). exists (normalised r t :: ms).
      split; [done|]. cbn. by rewrite Hms.
Qed.

(** Two rows, in the order of the query: one with a list of two trigger
    phrases, one without trigger column. *)
Definition two_rows : list row :=
  [ mk_row (Some "bar") (Some "lora") (Some "sdxl")
      (Some ("[" +:+ quoted "a" +:+ ", " +:+ quoted "b" +:+ "]")) (Some "u2/bar.pt");
    mk_row (Some "foo") (Some "main") None None (Some "u1/foo.pt") ].

(** The same rows, the second with the trigger list [[1, 2]]. *)
Definition two_rows_with_numbers : list row :=
  [ mk_row (Some "bar") (Some "lora") (Some "sdxl")
      (Some ("[" +:+ quoted "a" +:+ ", " +:+ quoted "b" +:+ "]")) (Some "u2/bar.pt");
    mk_row (Some "foo") (Some "main") None (Some "[1, 2]") (Some "u1/foo.pt") ].

Lemma load_models_row_by_row_witness :
  (exists ms,
     @load_models MiniJson.builtins (Rows two_rows) = inr ms
     /\ map triggers ms = [PyStr.join ", " ["a"; "b"]; ""])
  /\ (forall ms,
        @load_models MiniJson.builtins (Rows two_rows_with_numbers) <> inr ms).
Proof.
  split.
  - apply (@load_models_row_by_row MiniJson.builtins two_rows).
    constructor; [|constructor; [|constructor]].
    + eapply (@triggers_strings MiniJson.builtins _ _ ["a"; "b"]);
        [reflexivity | discriminate | reflexivity].
    + by apply (@triggers_absent MiniJson.builtins).
  - apply (@load_models_row_by_row MiniJson.builtins two_rows_with_numbers).
    right. left. exists "[1, 2]", [PyInt 1; PyInt 2], (PyInt 1).
    split; [reflexivity|]. split; [discriminate|]. split; [reflexivity|].
    split; [left|reflexivity].
Defined.

Lemma or_default_truthy x d : PyStr.truthy d = true -> PyStr.truthy (or_default x d) = true.
Proof. intros Hd. unfold or_default. destruct x as [[|c s]|]; done. Qed.

(** X15. Every record that [load_models] returns has a name, a type and a
    subtype that are not empty: a type or base column that is absent or
    empty gives ["Unknown"].  The path of a record is empty exactly when
    the path column of its row is absent or empty. *)
Theorem loaded_records_have_defined_fields `{Builtins} (db : database) :
  forall ms, load_models db = inr ms ->
  Forall (fun m => PyStr.truthy (name m) = true
                   /\ PyStr.truthy (type m) = true
                   /\ PyStr.truthy (subtype m) = true) ms
  /\ exists rows,
       db = Rows rows
       /\ Forall2 (fun r m =>
            (path m = "" <-> model_path r = None \/ model_path r = Some "")
            /\ (model_type r = None \/ model_type r = Some "" -> type m = "Unknown")
            /\ (model_base r = None \/ model_base r = Some "" -> subtype m = "Unknown"))
            rows ms.
Proof.
  intros ms Hl. destruct db as [| |rows]; try done. cbn [load_models] in Hl.
  destruct (load_rows_spec rows) as [[_ Hl']|(ms' & _ & Hl' & H2)];
    rewrite Hl' in Hl; [done|]. injection Hl as <-.
  split.
  - apply Forall_forall. intros m Hm.
    apply list_elem_of_lookup in Hm as [i Hi].
    destruct (Forall2_lookup_r _ _ _ _ _ H2 Hi) as (r & _ & t & ->).
    cbn. split; [|split; by apply or_default_truthy].
    unfold display_name. rewrite PyStrFacts.truthy_app.
    by rewrite or_default_truthy.
  - exists rows. split; [done|].
    eapply Forall2_impl; [exact H2|]. intros r m [t ->]. cbn.
    unfold or_default.
    destruct (model_path r) as [[|c p]|]; destruct (model_type r) as [[|c' p']|];
      destruct (model_base r) as [[|c'' p'']|]; cbn;
      (split; [split; [by auto|by intros [|]]|split; by intros [|]]).
Qed.

Lemma loaded_records_have_defined_fields_witness :
  Forall (fun m => PyStr.truthy (name m) = true
                   /\ PyStr.truthy (type m) = true
                   /\ PyStr.truthy (subtype m) = true)
    [normalised (mk_row None None None None None) ""].
Proof.
  eapply (@loaded_records_have_defined_fields MiniJson.builtins
            (Rows [mk_row None None None None None])).
  reflexivity.
Defined.

(* ===================================================================== *)
(** * [load_config] *)
(* ===================================================================== *)








(* ===================================================================== *)
(** * The view after the mount and after a recomputation *)
(* ===================================================================== *)

(** The visible list is the one a recomputation would show. *)
Definition up_to_date (s : viewer) : Prop :=
  filtered_models s = filtered_models (apply_filters s).

(** The events that recompute. *)
Definition recomputes (e : event) : bool :=
  match e with
  | HeaderSelected i =>
      match column_map i with Some _ => true | None => false end
  | InputChanged _ _ | ResetFilters => true
  | GenerateSymlinks _ => false
  end.

Lemma apply_filters_up_to_date s : up_to_date (apply_filters s).
Proof.
  unfold up_to_date. f_equal. symmetry.
  apply apply_filters_ext, engine_inputs_apply_filters.
Qed.

Lemma up_to_date_ext a b :
  engine_inputs a = engine_inputs b -> filtered_models a = filtered_models b ->
  up_to_date a -> up_to_date b.
Proof.
  unfold up_to_date. intros Hi Hf Ha.
  by rewrite <- Hf, <- (apply_filters_ext a b Hi).
Qed.



(** X18. Every event that recomputes leaves the visible list up to date
    with the filters and the sort state, and the events that do not
    recompute (the symlink action, a header event out of range) keep it up
    to date if it was. *)
Theorem visible_list_stays_up_to_date (s : viewer) (e : event) :
  recomputes e = true \/ up_to_date s ->
  up_to_date (handle s e).
Proof.
  intros Hpre. destruct e as [i|id v| |ok]; cbn [handle recomputes] in *.
  - rewrite header_selected_unfold.
    destruct (column_map i) as [c|]; [apply apply_filters_up_to_date|].
    by destruct Hpre.
  - rewrite on_input_changed_unfold. apply apply_filters_up_to_date.
  - unfold action_reset_filters. cbv zeta.
    match goal with |- context [apply_filters ?x] =>
      apply (up_to_date_ext (apply_filters x)); [done|done|apply apply_filters_up_to_date]
    end.
  - destruct Hpre as [|Hs]; [done|].
    apply (up_to_date_ext s); [|by destruct (generate_symlinks_frame ok s) as (_ & -> & _)|done].
    unfold action_generate_symlinks.
    destruct (filtered_models s); [done|].
    destruct (symlinks_of _ _); [done|]. by destruct ok.
Qed.

Lemma visible_list_stays_up_to_date_witness :
  up_to_date (handle unsorted_view (InputChanged "input_type" "lora"))
  /\ ~ up_to_date unsorted_view.
Proof.
  split.
  - apply visible_list_stays_up_to_date. left. reflexivity.
  - discriminate.
Defined.
